(** * PARETO example notebooks: a shallow embedding

    The repository's two notebooks drive externally supplied flowsheet
    models: [integrated_optimization_mvr_jupyter_notebook.ipynb] builds and
    solves the integrated desalination network and prints its costs, and
    [MD_PARETO.ipynb] runs a membrane-distillation flowsheet from slider
    inputs.

    Conventions of the embedding.
    - Python floats are modelled as exact rationals ([Qc]); rounding is not
      modelled.
    - A notebook cell is a computation over the kernel state that may raise;
      what a cell prints is kept in the state.
    - External libraries (the nonlinear solver, the flowsheet package) are
      parameters of the sections that use them. *)

From Stdlib Require Import QArith Qcanon.
From stdpp Require Import base numbers option list gmap strings.

Local Open Scope Qc_scope.

(** ** Python-level results *)

Inductive exn :=
  | KeyError
  | ValueError
  | ZeroDivisionError
  | NameError
  | ApplicationError.

Inductive result (A : Type) :=
  | Ok (a : A)
  | Raise (e : exn).
Arguments Ok {A} a.
Arguments Raise {A} e.

#[global] Instance result_ret : MRet result := λ A a, Ok a.
#[global] Instance result_bind : MBind result := λ A B f r,
  match r with
  | Ok a => f a
  | Raise e => Raise e
  end.

Definition is_ok {A} (r : result A) : bool :=
  match r with Ok _ => true | Raise _ => false end.

(** ** The part of Pyomo the notebook uses *)

Module Pyomo.

(** A scalar component (variable datum, parameter, expression datum) is
    seen through its current value, which is absent until something
    assigns it. *)
Definition component := option Qc.

(** Expressions as the arithmetic operators build them. *)
Inductive expr :=
  | Num (q : Qc)
  | Leaf (c : component)
  | Add (a b : expr)
  | Mul (a b : expr)
  | Div (a b : expr).

(** [pyo.value]: evaluates an expression against the current values and
    raises [ValueError] on a component that has none. *)
Fixpoint value (e : expr) : result Qc :=
  match e with
  | Num q => Ok q
  | Leaf None => Raise ValueError
  | Leaf (Some q) => Ok q
  | Add a b => x ← value a; y ← value b; Ok (x + y)
  | Mul a b => x ← value a; y ← value b; Ok (x * y)
  | Div a b =>
      x ← value a; y ← value b;
      if decide (y = 0) then Raise ZeroDivisionError else Ok (x / y)
  end.

(** Indexing an indexed component, [c[k]]; [KeyError] on a missing index. *)
Definition getitem `{Countable K} (c : gmap K component) (k : K) : result expr :=
  match c !! k with
  | Some d => Ok (Leaf d)
  | None => Raise KeyError
  end.

(** Python's [sum(g(x) for x in xs)]: the generator is consumed from the
    left, starting from the integer 0; a raising element aborts the sum. *)
Fixpoint sum_from {A} (acc : expr) (g : A → result expr) (xs : list A) : result expr :=
  match xs with
  | [] => Ok acc
  | x :: xs' => e ← g x; sum_from (Add acc e) g xs'
  end.

Definition py_sum {A} (g : A → result expr) (xs : list A) : result expr :=
  sum_from (Num 0) g xs.

End Pyomo.

(** ** The integrated desalination notebook *)

Module Integrated.
Import Pyomo.

(** [m.m_network]: the components of the network block that the notebook
    reads. *)
Record network := {
  arc_cost : component;
  disp_cost : component;
  fresh_cost : component;
  stor_cost : component;
  stor_rev : component;
  treat_rev : component;
  p_dt : component;
  s_T : list string;
  desalination_nodes : list string;
}.

(** [m]: the integrated model, with the desalination cost variables
    indexed by site and time period ([OPEX]) and by site ([CAPEX]). *)
Record model := {
  m_network : network;
  OPEX : gmap (string * string) component;
  CAPEX : gmap string component;
}.

(** Termination classes of a solve attempt. *)
Inductive status :=
  | Optimal
  | FeasibleSuboptimal
  | Infeasible
  | SolverError
  | IterationLimit.

Record solver := {
  s_name : string;
  s_options : gmap string Qc;
}.

(** One call of the external solver, as seen from outside. *)
Record invocation := {
  i_solver : string;
  i_options : gmap string Qc;
  i_model : model;
  i_tee : bool;
}.

Inductive line :=
  | LText (s : string)
  | LNum (q : Qc).

(** The kernel: the notebook's variables [m] and [ipopt], the output
    printed so far by the notebook's own [print] statements, and two
    observations kept for the proofs only: the termination class of the
    most recent solve and the log of calls made to the external solver. The
    notebook stores neither. The log that the solver streams under
    [tee=True] is the solver's own text; [k_out] does not hold it, the call
    records that it was asked for. *)
Record kernel := {
  k_m : model;
  k_ipopt : option solver;
  k_out : list line;
  k_last : option status;
  k_calls : list invocation;
}.

Definition cell (A : Type) := kernel → kernel * result A.

#[global] Instance cell_ret : MRet cell := λ A a k, (k, Ok a).
#[global] Instance cell_bind : MBind cell := λ A B f c k,
  match c k with
  | (k', Ok a) => f a k'
  | (k', Raise e) => (k', Raise e)
  end.

Definition lift {A} (r : result A) : cell A := λ k, (k, r).
Definition get_m : cell model := λ k, (k, Ok (k_m k)).

Definition emit (l : line) : cell unit := λ k,
  ({| k_m := k_m k; k_ipopt := k_ipopt k; k_out := k_out k ++ [l];
      k_last := k_last k; k_calls := k_calls k |}, Ok tt).

Definition print_str (s : string) : cell unit := emit (LText s).
Definition print_num (q : Qc) : cell unit := emit (LNum q).

(** *** Solving: the cell that creates and calls IPOPT *)

Definition SolverFactory (name : string) : solver :=
  {| s_name := name; s_options := ∅ |}.

Definition assign_ipopt (s : solver) : cell unit := λ k,
  ({| k_m := k_m k; k_ipopt := Some s; k_out := k_out k;
      k_last := k_last k; k_calls := k_calls k |}, Ok tt).

Definition get_ipopt : cell solver := λ k,
  match k_ipopt k with
  | Some s => (k, Ok s)
  | None => (k, Raise NameError)
  end.

(** [ipopt.options[key] = v] *)
Definition ipopt_set_option (key : string) (v : Qc) : cell unit :=
  s ← get_ipopt;
  assign_ipopt {| s_name := s_name s; s_options := <[key := v]> (s_options s) |}.

Section Solve.

(** The external solver: given a call, it leaves the model with new values
    and either reports a termination class or raises. *)
Variable nlp : invocation → model * result status.

(** The call itself. The model is updated in place. An exception of the
    solver counts as [SolverError] for the record of the most recent
    termination. *)
Definition call_solver (s : solver) (tee : bool) : cell status := λ k,
  let call := {| i_solver := s_name s; i_options := s_options s;
                 i_model := k_m k; i_tee := tee |} in
  let '(m', r) := nlp call in
  ({| k_m := m'; k_ipopt := k_ipopt k; k_out := k_out k;
      k_last := Some (match r with Ok st => st | Raise _ => SolverError end);
      k_calls := k_calls k ++ [call] |}, r).

(** [ipopt.solve(m, tee=...)] *)
Definition ipopt_solve (tee : bool) : cell status :=
  s ← get_ipopt; call_solver s tee.

Definition tiny : Qc := Q2Qc (1 # 1000000).

Definition solve_cell : cell status :=
  assign_ipopt (SolverFactory "ipopt");;
  ipopt_set_option "mu_init" tiny;;
  ipopt_set_option "bound_push" tiny;;
  ipopt_solve true.

End Solve.

(** *** Results: the cell that prints the costs *)

Definition rule : string :=
  "=================================================================".

Definition c365 : Qc := Qc_of_Z 365.
Definition c1000 : Qc := Qc_of_Z 1000.

(** [sum(sum(m.OPEX[s, t] / 365 * m.m_network.p_dt for t in m.m_network.s_T)
         for s in m.m_network.desalination_nodes)] *)
Definition opex_expr (m : model) : result expr :=
  py_sum (λ s,
    py_sum (λ t,
      x ← getitem (OPEX m) (s, t);
      Ok (Mul (Div x (Num c365)) (Leaf (p_dt (m_network m)))))
      (s_T (m_network m)))
    (desalination_nodes (m_network m)).

(** [sum(m.CAPEX[s] for s in m.m_network.desalination_nodes) / 365
      * m.m_network.p_dt * len(m.m_network.s_T)] *)
Definition capex_expr (m : model) : result expr :=
  e ← py_sum (λ s, getitem (CAPEX m) s) (desalination_nodes (m_network m));
  Ok (Mul (Mul (Div e (Num c365)) (Leaf (p_dt (m_network m))))
          (Num (Qc_of_Z (Z.of_nat (length (s_T (m_network m))))))).

Definition results_cell : cell unit :=
  print_str rule;;
  print_str "#########            Costing Variables (USD)        #############";;
  print_str rule;;
  print_str "Piping cost";;
  m ← get_m;
  v ← lift (value (Leaf (arc_cost (m_network m))));
  print_num v;;
  print_str rule;;
  print_str "Disposal cost";;
  v ← lift (value (Leaf (disp_cost (m_network m))));
  print_num v;;
  print_str rule;;
  print_str "Fresh water cost";;
  v ← lift (value (Leaf (fresh_cost (m_network m))));
  print_num v;;
  print_str rule;;
  print_str "Storage Cost";;
  v ← lift (value (Leaf (stor_cost (m_network m))));
  print_num v;;
  print_str rule;;
  print_str "Storage reward";;
  v ← lift (value (Leaf (stor_rev (m_network m))));
  print_num v;;
  print_str rule;;
  print_str "Treatment reward";;
  v ← lift (value (Leaf (treat_rev (m_network m))));
  print_num v;;
  print_str rule;;
  print_str "Treatment cost - OPEX";;
  v ← lift (opex_expr m ≫= value);
  print_num (c1000 * v);;
  print_str "Treatment cost - CAPEX";;
  v ← lift (capex_expr m ≫= value);
  print_num (c1000 * v);;
  print_str rule.

(** The report a reader takes from the printed output: every caption line
    that is directly followed by a number, with that number. *)
Fixpoint labelled (ls : list line) : list (string * Qc) :=
  match ls with
  | [] => []
  | LText s :: rest =>
      match rest with
      | LNum q :: _ => (s, q) :: labelled rest
      | _ => labelled rest
      end
  | LNum _ :: rest => labelled rest
  end.

(** The fields of the report and the captions the cell prints them under. *)
Inductive field :=
  | ArcCost
  | DisposalCost
  | FreshwaterCost
  | StorageCost
  | StorageRevenue
  | TreatmentRevenue
  | TreatmentOpex
  | TreatmentCapex.

Definition caption (f : field) : string :=
  match f with
  | ArcCost => "Piping cost"
  | DisposalCost => "Disposal cost"
  | FreshwaterCost => "Fresh water cost"
  | StorageCost => "Storage Cost"
  | StorageRevenue => "Storage reward"
  | TreatmentRevenue => "Treatment reward"
  | TreatmentOpex => "Treatment cost - OPEX"
  | TreatmentCapex => "Treatment cost - CAPEX"
  end.

Definition clear_output (k : kernel) : kernel :=
  {| k_m := k_m k; k_ipopt := k_ipopt k; k_out := [];
     k_last := k_last k; k_calls := k_calls k |}.

(** Running the results cell on a fresh output area: the kernel afterwards
    and either the report read off the output or the exception raised. *)
Definition extract (k : kernel) : kernel * result (gmap string Qc) :=
  match results_cell (clear_output k) with
  | (k', Ok _) => (k', Ok (list_to_map (labelled (k_out k'))))
  | (k', Raise e) => (k', Raise e)
  end.

(** *** Reading the report against the model *)

(** A model is readable when every quantity the results cell asks for has a
    value: the six network costs, the time step, and the desalination costs
    at every desalination site and time period. A solve that loads a
    solution leaves the model in such a state. *)
Definition has_value (c : option component) : bool :=
  match c with
  | Some (Some _) => true
  | _ => false
  end.

Definition readable (m : model) : bool :=
  let n := m_network m in
  bool_decide (is_Some (arc_cost n)) && bool_decide (is_Some (disp_cost n))
  && bool_decide (is_Some (fresh_cost n)) && bool_decide (is_Some (stor_cost n))
  && bool_decide (is_Some (stor_rev n)) && bool_decide (is_Some (treat_rev n))
  && bool_decide (is_Some (p_dt n))
  && forallb (λ s,
       has_value (CAPEX m !! s)
       && forallb (λ t, has_value (OPEX m !! (s, t))) (s_T n))
       (desalination_nodes n).

(** Values as numbers, 0 standing for an absent one. *)
Definition val (c : component) : Qc := default 0 c.
Definition opex_at (m : model) (s t : string) : Qc :=
  val (default None (OPEX m !! (s, t))).
Definition capex_at (m : model) (s : string) : Qc :=
  val (default None (CAPEX m !! s)).

(** The sum of [f] over a list, as mathematics writes it. *)
Definition total {A} (f : A → Qc) (xs : list A) : Qc :=
  foldr (λ x acc, f x + acc) 0 xs.

(** The two treatment fields as the specification words them. *)
Definition stated_treatment_opex (m : model) : Qc :=
  let n := m_network m in
  c1000 * total (λ s, total (λ t, opex_at m s t / c365 * val (p_dt n)) (s_T n))
            (desalination_nodes n).

Definition stated_treatment_capex (m : model) : Qc :=
  let n := m_network m in
  c1000 * (total (capex_at m) (desalination_nodes n) / c365 * val (p_dt n)
           * Qc_of_Z (Z.of_nat (length (s_T n)))).

(** The raw model quantity behind each network cost field. *)
Definition network_quantity (f : field) (n : network) : component :=
  match f with
  | ArcCost => arc_cost n
  | DisposalCost => disp_cost n
  | FreshwaterCost => fresh_cost n
  | StorageCost => stor_cost n
  | StorageRevenue => stor_rev n
  | TreatmentRevenue => treat_rev n
  | TreatmentOpex | TreatmentCapex => None
  end.

Definition is_network_field (f : field) : bool :=
  match f with
  | TreatmentOpex | TreatmentCapex => false
  | _ => true
  end.

(** What the results cell prints on a readable model. *)
Definition printed (m : model) : list line :=
  let n := m_network m in
  [ LText rule;
    LText "#########            Costing Variables (USD)        #############";
    LText rule;
    LText "Piping cost"; LNum (val (arc_cost n)); LText rule;
    LText "Disposal cost"; LNum (val (disp_cost n)); LText rule;
    LText "Fresh water cost"; LNum (val (fresh_cost n)); LText rule;
    LText "Storage Cost"; LNum (val (stor_cost n)); LText rule;
    LText "Storage reward"; LNum (val (stor_rev n)); LText rule;
    LText "Treatment reward"; LNum (val (treat_rev n)); LText rule;
    LText "Treatment cost - OPEX"; LNum (stated_treatment_opex m);
    LText "Treatment cost - CAPEX"; LNum (stated_treatment_capex m);
    LText rule ].

(** Appending to the output, and cells that only do that: their output and
    result are a function of the model, and nothing else in the kernel
    changes. *)
Definition append_out (k : kernel) (ls : list line) : kernel :=
  {| k_m := k_m k; k_ipopt := k_ipopt k; k_out := k_out k ++ ls;
     k_last := k_last k; k_calls := k_calls k |}.

Definition read_only {A} (c : cell A) : Prop :=
  ∀ m, ∃ ls r, ∀ k, k_m k = m → c k = (append_out k ls, r).

(** *** A small instance *)

Definition demo_network : network := {|
  arc_cost := Some (Qc_of_Z 120);
  disp_cost := Some (Qc_of_Z 45);
  fresh_cost := Some 0;
  stor_cost := Some (Qc_of_Z 7);
  stor_rev := Some (Qc_of_Z 3);
  treat_rev := Some (Qc_of_Z 60);
  p_dt := Some (Qc_of_Z 7);
  s_T := ["T01"; "T02"];
  desalination_nodes := ["R01_IN"];
|}.

Definition demo_model : model := {|
  m_network := demo_network;
  OPEX := {[ ("R01_IN", "T01") := Some (Qc_of_Z 730);
             ("R01_IN", "T02") := Some (Qc_of_Z 365) ]};
  CAPEX := {[ "R01_IN" := Some (Qc_of_Z 3650) ]};
|}.

Definition demo_kernel : kernel := {|
  k_m := demo_model; k_ipopt := None; k_out := [];
  k_last := None; k_calls := [];
|}.

(** The same model with one desalination cost entry missing, and with the
    piping cost not yet assigned. *)
Definition demo_missing_index : kernel := {|
  k_m := {| m_network := demo_network;
            OPEX := {[ ("R01_IN", "T01") := Some (Qc_of_Z 730) ]};
            CAPEX := {[ "R01_IN" := Some (Qc_of_Z 3650) ]} |};
  k_ipopt := None; k_out := []; k_last := None; k_calls := [];
|}.

Definition demo_unassigned : kernel := {|
  k_m := {| m_network :=
              {| arc_cost := None; disp_cost := Some (Qc_of_Z 45);
                 fresh_cost := Some 0; stor_cost := Some (Qc_of_Z 7);
                 stor_rev := Some (Qc_of_Z 3); treat_rev := Some (Qc_of_Z 60);
                 p_dt := Some (Qc_of_Z 7); s_T := ["T01"; "T02"];
                 desalination_nodes := ["R01_IN"] |};
            OPEX := OPEX demo_model; CAPEX := CAPEX demo_model |};
  k_ipopt := None; k_out := []; k_last := None; k_calls := [];
|}.

(** A model of a network without desalination sites. *)
Definition demo_no_sites : kernel := {|
  k_m := {| m_network :=
              {| arc_cost := Some (Qc_of_Z 120); disp_cost := Some (Qc_of_Z 45);
                 fresh_cost := Some 0; stor_cost := Some (Qc_of_Z 7);
                 stor_rev := Some (Qc_of_Z 3); treat_rev := Some 0;
                 p_dt := Some (Qc_of_Z 7); s_T := ["T01"; "T02"];
                 desalination_nodes := [] |};
            OPEX := ∅; CAPEX := ∅ |};
  k_ipopt := None; k_out := []; k_last := None; k_calls := [];
|}.

(** A solver that leaves the values as they are and reports the given
    termination class. *)
Definition nlp_reporting (st : status) : invocation → model * result status :=
  λ call, (i_model call, Ok st).

(** A solver that crashes. *)
Definition nlp_crashing : invocation → model * result status :=
  λ call, (i_model call, Raise ApplicationError).

(** The kernel after the solve cell ran against a solver that reports
    infeasibility, and against one that crashes. *)
Definition after_infeasible : kernel :=
  (solve_cell (nlp_reporting Infeasible) demo_kernel).1.

Definition after_crash : kernel := (solve_cell nlp_crashing demo_kernel).1.

(** The call the solve cell makes on a model. *)
Definition the_call (m : model) : invocation := {|
  i_solver := "ipopt";
  i_options := <["bound_push" := tiny]> (<["mu_init" := tiny]> ∅);
  i_model := m;
  i_tee := true;
|}.

(** *** Running the cells again *)

(** The solver object the solve cell leaves in [ipopt]. *)
Definition configured : solver := {|
  s_name := "ipopt";
  s_options := <["bound_push" := tiny]> (<["mu_init" := tiny]> ∅);
|}.

(** The kernel after the solve cell has been run [n] times in a row. *)
Definition rerun (nlp : invocation → model * result status) (n : nat)
    (k : kernel) : kernel :=
  Nat.iter n (λ k', (solve_cell nlp k').1) k.


(** The six network costs all have a value. *)
Definition network_readable (n : network) : bool :=
  bool_decide (is_Some (arc_cost n)) && bool_decide (is_Some (disp_cost n))
  && bool_decide (is_Some (fresh_cost n)) && bool_decide (is_Some (stor_cost n))
  && bool_decide (is_Some (stor_rev n)) && bool_decide (is_Some (treat_rev n)).

(** Which of the names the results cell reads are bound: [pyo] by the
    import cell, [m] by the cell that builds the model. *)
Record bindings := {
  pyo_bound : bool;
  m_bound : bool;
}.

(** The results cell in a kernel where those two cells may not have run.
    Its first four statements print text and read no name. The fifth,
    [print(pyo.value(m.m_network.arc_cost))], looks up [pyo] and then [m],
    the only two names of the notebook that the cell reads: with one of
    them unbound it raises [NameError] there, with both bound the cell is
    [results_cell] on the model that [m] names. *)
Definition results_cell_in (b : bindings) : cell unit :=
  if pyo_bound b && m_bound b then results_cell
  else
    print_str rule;;
    print_str "#########            Costing Variables (USD)        #############";;
    print_str rule;;
    print_str "Piping cost";;
    lift (Raise NameError).

(** What the results cell has printed when it reaches the treatment OPEX
    expression. *)
Definition printed_before_opex (n : network) : list line :=
  [ LText rule;
    LText "#########            Costing Variables (USD)        #############";
    LText rule;
    LText "Piping cost"; LNum (val (arc_cost n)); LText rule;
    LText "Disposal cost"; LNum (val (disp_cost n)); LText rule;
    LText "Fresh water cost"; LNum (val (fresh_cost n)); LText rule;
    LText "Storage Cost"; LNum (val (stor_cost n)); LText rule;
    LText "Storage reward"; LNum (val (stor_rev n)); LText rule;
    LText "Treatment reward"; LNum (val (treat_rev n)); LText rule;
    LText "Treatment cost - OPEX" ].

End Integrated.

(** ** The membrane distillation notebook *)

Module MD.

(** [ipywidgets.FloatSlider]: a bounded float. The widget keeps its value
    within [min, max]: a value proposed from outside is capped and
    floored. *)
Record FloatSlider := {
  value : Qc;
  min : Qc;
  max : Qc;
  step : Qc;
}.

(** Python's [max(a, b)] and [min(a, b)] on numbers. *)
Definition py_max (a b : Qc) : Qc := if decide (a < b) then b else a.
Definition py_min (a b : Qc) : Qc := if decide (b < a) then b else a.

(** [min(max(value, self.min), self.max)] *)
Definition cap_floor (lo hi v : Qc) : Qc := py_min (py_max v lo) hi.

Definition new_slider (v lo hi st : Qc) : FloatSlider :=
  {| value := cap_floor lo hi v; min := lo; max := hi; step := st |}.

Definition set_value (w : FloatSlider) (v : Qc) : FloatSlider :=
  {| value := cap_floor (min w) (max w) v; min := min w; max := max w;
     step := step w |}.

Record checkboxes := {
  system_checkbox : bool;
  design_checkbox : bool;
  detailed_cost_checkbox : bool;
  state_checkbox : bool;
}.

(** Calls into the flowsheet package, in the order they are made. *)
Inductive md_call :=
  | CBuild
  | CSetOperatingConditions (feed_flow_mass feed_mass_frac_TDS overall_recovery : Qc)
  | CInitializeSystem
  | COptimizeSetUp
  | CSolve
  | CDisplaySystem
  | CDisplayDesign
  | CDisplayState
  | CDisplayDetailedCosts.

(** The notebook's global names, each absent until its cell has run, and the
    log of calls made into the flowsheet package. What the displays write
    to the output area is not modelled. *)
Record notebook := {
  salinity_widget : option FloatSlider;
  flowrate_widget : option FloatSlider;
  recovery_widget : option FloatSlider;
  run_simulation_defined : bool;
  boxes : option checkboxes;
  run_button : bool;
  md_calls : list md_call;
}.

Definition fresh : notebook := {|
  salinity_widget := None; flowrate_widget := None; recovery_widget := None;
  run_simulation_defined := false; boxes := None; run_button := false;
  md_calls := [];
|}.

Definition q (n d : Z) : Qc := Q2Qc (Qmake n (Z.to_pos d)).

(** The solubility limit the recovery slider is derived from, and
    the bound [1 - salinity / 0.3]. *)
Definition solubility : Qc := q 3 10.
Definition recovery_bound (salinity : Qc) : Qc := 1 - salinity / solubility.

Definition with_salinity (nb : notebook) (w : FloatSlider) : notebook :=
  {| salinity_widget := Some w; flowrate_widget := flowrate_widget nb;
     recovery_widget := recovery_widget nb;
     run_simulation_defined := run_simulation_defined nb; boxes := boxes nb;
     run_button := run_button nb; md_calls := md_calls nb |}.

Definition with_flowrate (nb : notebook) (w : FloatSlider) : notebook :=
  {| salinity_widget := salinity_widget nb; flowrate_widget := Some w;
     recovery_widget := recovery_widget nb;
     run_simulation_defined := run_simulation_defined nb; boxes := boxes nb;
     run_button := run_button nb; md_calls := md_calls nb |}.

Definition with_recovery (nb : notebook) (w : FloatSlider) : notebook :=
  {| salinity_widget := salinity_widget nb; flowrate_widget := flowrate_widget nb;
     recovery_widget := Some w;
     run_simulation_defined := run_simulation_defined nb; boxes := boxes nb;
     run_button := run_button nb; md_calls := md_calls nb |}.

Definition with_boxes (nb : notebook) (b : checkboxes) : notebook :=
  {| salinity_widget := salinity_widget nb; flowrate_widget := flowrate_widget nb;
     recovery_widget := recovery_widget nb;
     run_simulation_defined := run_simulation_defined nb; boxes := Some b;
     run_button := run_button nb; md_calls := md_calls nb |}.

Definition with_calls (nb : notebook) (cs : list md_call) : notebook :=
  {| salinity_widget := salinity_widget nb; flowrate_widget := flowrate_widget nb;
     recovery_widget := recovery_widget nb;
     run_simulation_defined := run_simulation_defined nb; boxes := boxes nb;
     run_button := run_button nb; md_calls := cs |}.

(** The cell that creates the salinity and flowrate sliders. *)
Definition sliders_cell (nb : notebook) : notebook :=
  with_flowrate
    (with_salinity nb (new_slider (q 35 1000) (q 1 100) (q 15 100) (q 5 1000)))
    (new_slider 1 (q 1 10) (Qc_of_Z 10) (q 1 10)).

(** The cell that creates the recovery slider; its [max] is evaluated from
    the salinity slider as the cell runs. Without the salinity slider the
    cell raises [NameError] and defines nothing. *)
Definition recovery_cell (nb : notebook) : notebook :=
  match salinity_widget nb with
  | Some sw =>
      with_recovery nb
        (new_slider (q 1 2) (q 1 10) (1 - value sw / q 3 10) (q 1 10))
  | None => nb
  end.

(** The cell that defines [run_simulation]. *)
Definition def_cell (nb : notebook) : notebook :=
  {| salinity_widget := salinity_widget nb; flowrate_widget := flowrate_widget nb;
     recovery_widget := recovery_widget nb;
     run_simulation_defined := true; boxes := boxes nb;
     run_button := run_button nb; md_calls := md_calls nb |}.

Definition checkbox_cell (nb : notebook) : notebook :=
  with_boxes nb {| system_checkbox := false; design_checkbox := false;
                   detailed_cost_checkbox := false; state_checkbox := false |}.

(** The cell that creates the button and registers the click handler. *)
Definition button_cell (nb : notebook) : notebook :=
  {| salinity_widget := salinity_widget nb; flowrate_widget := flowrate_widget nb;
     recovery_widget := recovery_widget nb;
     run_simulation_defined := run_simulation_defined nb; boxes := boxes nb;
     run_button := true; md_calls := md_calls nb |}.

(** Code run by a click: a computation over the notebook that may raise. *)
Definition act (A : Type) := notebook → notebook * result A.

#[global] Instance act_ret : MRet act := λ A a nb, (nb, Ok a).
#[global] Instance act_bind : MBind act := λ A B f c nb,
  match c nb with
  | (nb', Ok a) => f a nb'
  | (nb', Raise e) => (nb', Raise e)
  end.

Definition global {A} (read : notebook → option A) : act A := λ nb,
  match read nb with
  | Some a => (nb, Ok a)
  | None => (nb, Raise NameError)
  end.

Definition when (b : bool) (c : act unit) : act unit :=
  if b then c else mret tt.

(** The flowsheet package [md_flow]: each function either returns or
    raises. *)
Record md_flow := {
  flowsheet : Type;
  build : result flowsheet;
  set_operating_conditions : flowsheet → Qc → Qc → Qc → result flowsheet;
  initialize_system : flowsheet → result flowsheet;
  optimize_set_up : flowsheet → result flowsheet;
  solve : flowsheet → result flowsheet;
  display_system : flowsheet → result unit;
  display_design : flowsheet → result unit;
  display_state : flowsheet → result unit;
  display_detailed_costs : flowsheet → result unit;
}.

Section Flowsheet.

Variable md : md_flow.

(** One call into the package: logged, then made. *)
Definition call {A} (c : md_call) (r : result A) : act A := λ nb,
  (with_calls nb (md_calls nb ++ [c]), r).

Definition run_simulation (salinity flowrate : Qc) : act (flowsheet md) :=
  model ← call CBuild (build md);
  w ← global recovery_widget;
  model ← call (CSetOperatingConditions flowrate salinity (value w))
            (set_operating_conditions md model flowrate salinity (value w));
  model ← call CInitializeSystem (initialize_system md model);
  model ← call COptimizeSetUp (optimize_set_up md model);
  model ← call CSolve (solve md model);
  mret model.

(** The body of [on_run_button_clicked], the block under [with output:]. *)
Definition on_run_button_clicked : act unit :=
  _ ← global (λ nb, if run_simulation_defined nb then Some tt else None);
  sw ← global salinity_widget;
  fw ← global flowrate_widget;
  model ← run_simulation (value sw) (value fw);
  b ← global boxes;
  when (system_checkbox b) (call CDisplaySystem (display_system md model));;
  b ← global boxes;
  when (design_checkbox b) (call CDisplayDesign (display_design md model));;
  b ← global boxes;
  when (state_checkbox b) (call CDisplayState (display_state md model));;
  b ← global boxes;
  when (detailed_cost_checkbox b)
    (call CDisplayDetailedCosts (display_detailed_costs md model)).

(** What the user and the kernel can do. *)
Inductive event :=
  | RunSlidersCell
  | RunRecoveryCell
  | RunDefCell
  | RunCheckboxCell
  | RunButtonCell
  | MoveSalinity (v : Qc)
  | MoveFlowrate (v : Qc)
  | MoveRecovery (v : Qc)
  | Tick (b : checkboxes)
  | Click.

Definition react (nb : notebook) (e : event) : notebook :=
  match e with
  | RunSlidersCell => sliders_cell nb
  | RunRecoveryCell => recovery_cell nb
  | RunDefCell => def_cell nb
  | RunCheckboxCell => checkbox_cell nb
  | RunButtonCell => button_cell nb
  | MoveSalinity v =>
      match salinity_widget nb with
      | Some w => with_salinity nb (set_value w v)
      | None => nb
      end
  | MoveFlowrate v =>
      match flowrate_widget nb with
      | Some w => with_flowrate nb (set_value w v)
      | None => nb
      end
  | MoveRecovery v =>
      match recovery_widget nb with
      | Some w => with_recovery nb (set_value w v)
      | None => nb
      end
  | Tick b =>
      match boxes nb with
      | Some _ => with_boxes nb b
      | None => nb
      end
  | Click => if run_button nb then (on_run_button_clicked nb).1 else nb
  end.

Definition run (nb : notebook) (es : list event) : notebook :=
  foldl react nb es.

(** [with output:] around a block, under IPython: an exception that leaves
    the block is shown in the output area as a traceback and goes no
    further, so the statement itself ends normally. The result is the
    exception shown, if any. *)
Definition with_output (body : act unit) (nb : notebook) : notebook * option exn :=
  match body nb with
  | (nb', Ok _) => (nb', None)
  | (nb', Raise e) => (nb', Some e)
  end.

(** What [run_button.on_click(on_run_button_clicked)] makes a click run:
    the handler, whose whole body is inside [with output:]. *)
Definition on_click : notebook → notebook * option exn :=
  with_output on_run_button_clicked.

End Flowsheet.

(** A session in which the salinity is raised after the recovery slider
    exists. *)
Definition raise_salinity_late : list event :=
  [ RunSlidersCell; RunRecoveryCell; RunDefCell; RunCheckboxCell;
    RunButtonCell; MoveRecovery (q 8 10); MoveSalinity (q 15 100); Click ].

(** The sliders and the notebook that session leaves just before the
    click. *)
Definition salinity_raised : FloatSlider :=
  {| value := q 15 100; min := q 1 100; max := q 15 100; step := q 5 1000 |}.

Definition flowrate_untouched : FloatSlider :=
  {| value := 1; min := q 1 10; max := Qc_of_Z 10; step := q 1 10 |}.

Definition recovery_set_early : FloatSlider :=
  {| value := q 8 10; min := q 1 10; max := 1 - q 35 1000 / q 3 10;
     step := q 1 10 |}.

Definition before_click : notebook := {|
  salinity_widget := Some salinity_raised;
  flowrate_widget := Some flowrate_untouched;
  recovery_widget := Some recovery_set_early;
  run_simulation_defined := true;
  boxes := Some {| system_checkbox := false; design_checkbox := false;
                   detailed_cost_checkbox := false; state_checkbox := false |};
  run_button := true;
  md_calls := [];
|}.

(** Code that never removes a call from the log. *)
Definition keeps_log {A} (c : act A) : Prop :=
  ∀ nb x, x ∈ md_calls nb → x ∈ md_calls (c nb).1.

(** *** Sessions in general *)

(** The calls of one complete [run_simulation], in order, and the display
    calls that follow it, in the order the handler tests the checkboxes. *)
Definition pipeline (flowrate salinity recovery : Qc) : list md_call :=
  [ CBuild; CSetOperatingConditions flowrate salinity recovery;
    CInitializeSystem; COptimizeSetUp; CSolve ].

Definition shown (b : checkboxes) : list md_call :=
  (if system_checkbox b then [CDisplaySystem] else [])
  ++ (if design_checkbox b then [CDisplayDesign] else [])
  ++ (if state_checkbox b then [CDisplayState] else [])
  ++ (if detailed_cost_checkbox b then [CDisplayDetailedCosts] else []).

(** The calls [run_simulation] can make given whether the recovery slider
    exists: without it only the flowsheet is built. *)
Definition pipeline_of (flowrate salinity : Qc) (rw : option FloatSlider)
    : list md_call :=
  match rw with
  | Some w => pipeline flowrate salinity (value w)
  | None => [CBuild]
  end.

Definition is_display (c : md_call) : Prop :=
  match c with
  | CDisplaySystem | CDisplayDesign | CDisplayState | CDisplayDetailedCosts => True
  | _ => False
  end.

(** Code that only appends calls satisfying [P] to the log and leaves every
    global name as it was. *)
Definition logs {A} (P : md_call → Prop) (c : act A) : Prop :=
  ∀ nb, ∃ new, (c nb).1 = with_calls nb (md_calls nb ++ new) ∧ Forall P new.

(** A flowsheet package none of whose functions ever raises. *)
Definition always_returns (md : md_flow) : Prop :=
  is_ok (build md) = true
  ∧ (∀ m f s r, is_ok (set_operating_conditions md m f s r) = true)
  ∧ (∀ m, is_ok (initialize_system md m) = true)
  ∧ (∀ m, is_ok (optimize_set_up md m) = true)
  ∧ (∀ m, is_ok (solve md m) = true)
  ∧ (∀ m, is_ok (display_system md m) = true)
  ∧ (∀ m, is_ok (display_design md m) = true)
  ∧ (∀ m, is_ok (display_state md m) = true)
  ∧ (∀ m, is_ok (display_detailed_costs md m) = true).

(** The ranges the cells give the sliders. *)
Definition slider_within (lo hi : Qc) (w : FloatSlider) : Prop :=
  min w = lo ∧ max w = hi ∧ lo ≤ value w ∧ value w ≤ hi.

Definition well_bounded (nb : notebook) : Prop :=
  (∀ w, salinity_widget nb = Some w → slider_within (q 1 100) (q 15 100) w)
  ∧ (∀ w, flowrate_widget nb = Some w → slider_within (q 1 10) (Qc_of_Z 10) w)
  ∧ (∀ w, recovery_widget nb = Some w →
       min w = q 1 10 ∧ q 1 2 ≤ max w ∧ max w ≤ q 29 30
       ∧ min w ≤ value w ∧ value w ≤ max w).

(** Operating conditions within the sliders' ranges. *)
Definition in_range (c : md_call) : Prop :=
  match c with
  | CSetOperatingConditions f s r =>
      (q 1 10 ≤ f ∧ f ≤ Qc_of_Z 10)
      ∧ (q 1 100 ≤ s ∧ s ≤ q 15 100)
      ∧ (q 1 10 ≤ r ∧ r ≤ q 29 30)
  | _ => True
  end.

(** Operating conditions that respect the solubility bound. *)
Definition within_bound (c : md_call) : Prop :=
  match c with
  | CSetOperatingConditions _ s r => r ≤ recovery_bound s
  | _ => True
  end.

#[global] Instance md_call_eq_dec : EqDecision md_call.
Proof. solve_decision. Defined.

(** The recovery slider's bound is the one for the current salinity. *)
Definition in_step (nb : notebook) : Prop :=
  ∀ sw w, salinity_widget nb = Some sw → recovery_widget nb = Some w →
          max w = recovery_bound (value sw).

Definition is_click (e : event) : bool :=
  match e with
  | Click => true
  | _ => false
  end.

(** Events that leave the salinity slider as it is. *)
Definition keeps_salinity (e : event) : Prop :=
  match e with
  | RunSlidersCell | MoveSalinity _ => False
  | _ => True
  end.

(** Two sessions: the salinity is raised before the recovery cell runs, and
    the button is clicked before the recovery cell has run. *)
Definition raise_salinity_early : list event :=
  [ RunSlidersCell; MoveSalinity (q 15 100) ].

Definition then_simulate : list event :=
  [ RunDefCell; RunCheckboxCell; RunButtonCell; MoveRecovery (q 8 10); Click ].

Definition no_recovery_cell : list event :=
  [ RunSlidersCell; RunDefCell; RunCheckboxCell; RunButtonCell ].

(** The notebook before the click, with two of the boxes ticked. *)
Definition ticked : checkboxes :=
  {| system_checkbox := true; design_checkbox := false;
     detailed_cost_checkbox := true; state_checkbox := false |}.

Definition ticked_before_click : notebook := with_boxes before_click ticked.

(** A flowsheet package in which every call returns. *)
Definition md_returning : md_flow := {|
  flowsheet := unit;
  build := Ok tt;
  set_operating_conditions := λ _ _ _ _, Ok tt;
  initialize_system := λ _, Ok tt;
  optimize_set_up := λ _, Ok tt;
  solve := λ _, Ok tt;
  display_system := λ _, Ok tt;
  display_design := λ _, Ok tt;
  display_state := λ _, Ok tt;
  display_detailed_costs := λ _, Ok tt;
|}.

End MD.

(** ** The build and back-calculation functions behind the notebook

    [integrated_model_build] and [back_calculate_design] live in
    [pareto.models_extra.integrate_desal.integrated_models]; the notebook
    only calls them. They are modelled here from the specification's
    description of [build] and [backCalculateDesign]. The unit sub-model and
    the per-site sizing belong to the physics and are parameters. *)

Module Harness.

Inductive failure :=
  | DataFormatError
  | ConfigurationError
  | InitializationError
  | ExtractionError.

(** Modelled from the spec: the data model of section 3. Structured input:
    set definitions and parameters. *)
Record RawInputTable := {
  sets : gmap string (list string);
  parameters : gmap string (gmap (list string) Qc);
}.

Inductive domain :=
  | ContinuousBounded (lo hi : Qc)
  | ContinuousUnbounded
  | Binary.

(** Where a variable lives: at a network node, or in the i-th stage of the
    unit chain built at a site. *)
Inductive place :=
  | Node (site : string)
  | Stage (site : string) (i : nat).

Record variable := {
  v_place : place;
  v_name : string;
  v_domain : domain;
  v_value : option Qc;
}.

Inductive relation :=
  | Equality
  | Inequality.

(** Constraints by what they tie together: a node passing its inlet through
    to its outlet, link [i] of the chain at a site (link 0 joins the node
    inlet to stage 1, link n joins stage n to the node outlet), and the
    equations of a stage. *)
Inductive constraint :=
  | PassThrough (site : string)
  | Wire (site : string) (i : nat)
  | UnitEquation (site : string) (i : nat) (name : string) (r : relation).

#[global] Instance place_eq_dec : EqDecision place.
Proof. solve_decision. Defined.

#[global] Instance relation_eq_dec : EqDecision relation.
Proof. solve_decision. Defined.

#[global] Instance constraint_eq_dec : EqDecision constraint.
Proof. solve_decision. Defined.

(** Modelled from the spec: a model is its decision variables, its
    constraints and an objective. *)
Record ModelInstance := {
  variables : list variable;
  constraints : list constraint;
  objective : string;
}.

(** Modelled from the spec: the process-unit sub-model is supplied from
    outside. What it contributes per stage, and the largest chain it
    allows. *)
Record unit_model := {
  unit_variables : list (string * domain);
  unit_equations : list (string * relation);
  max_stages : positive;
}.

Record design := {
  d_stages : nat;
  d_area : Qc;
}.

Section Build.

Variable um : unit_model.

(** The name of the set that lists the network's sites. *)
Variable site_set : string.

Definition sites (t : RawInputTable) : list string :=
  default [] (sets t !! site_set).

(** Modelled from the spec: the network model before any unit is built,
    as the network library makes it from the table. A site that passes its
    flow through carries the constraint [PassThrough]. *)
Variable base : RawInputTable → ModelInstance.

Definition stage_variables (s : string) (i : nat) : list variable :=
  (λ nd, {| v_place := Stage s i; v_name := nd.1; v_domain := nd.2;
            v_value := None |}) <$> unit_variables um.

Definition stage_equations (s : string) (i : nat) : list constraint :=
  (λ nr, UnitEquation s i nr.1 nr.2) <$> unit_equations um.

(** What a chain of [n] stages at site [s] adds to the model. *)
Definition chain_variables (s : string) (n : nat) : list variable :=
  seq 1 n ≫= stage_variables s.

Definition chain_constraints (s : string) (n : nat) : list constraint :=
  (seq 1 n ≫= stage_equations s) ++ (Wire s <$> seq 0 (S n)).

(** Modelled from the spec: building a chain of [n] stages at site [s].
    The stages' variables and equations are added, the chain is wired
    between the node's inlet and outlet, and the node no longer passes
    through. *)
Definition install (s : string) (n : nat) (acc : ModelInstance) : ModelInstance := {|
  variables := variables acc ++ chain_variables s n;
  constraints :=
    filter (λ c, c ≠ PassThrough s) (constraints acc) ++ chain_constraints s n;
  objective := objective acc;
|}.

Definition install_item (acc : ModelInstance) (item : string * positive)
    : ModelInstance :=
  install item.1 (Pos.to_nat item.2) acc.

(** An entry of the selection that [build] accepts. Stage counts are
    positive by type, as the selection's invariant asks. *)
Definition acceptable (t : RawInputTable) (item : string * positive) : Prop :=
  item.1 ∈ sites t ∧ (item.2 ≤ max_stages um)%positive.

Definition add_site (t : RawInputTable) (acc : ModelInstance)
    (item : string * positive) : failure + ModelInstance :=
  if decide (item.1 ∈ sites t) then
    if decide (item.2 ≤ max_stages um)%positive
    then inr (install_item acc item)
    else inl ConfigurationError
  else inl ConfigurationError.

Fixpoint build_items (t : RawInputTable) (acc : ModelInstance)
    (items : list (string * positive)) : failure + ModelInstance :=
  match items with
  | [] => inr acc
  | item :: rest =>
      match add_site t acc item with
      | inr acc' => build_items t acc' rest
      | inl e => inl e
      end
  end.

(** Modelled from the spec: [integrated_model_build] is not among the
    sources. For every site named in the selection, [count] chained unit
    sub-models are built at that node and wired to its flows in place of the
    pass-through; a site without a network node, or a count above the unit
    model's maximum, fails with [ConfigurationError]. The selection is a
    mapping, so its entries come in whatever order the mapping lists them. *)
Definition build (t : RawInputTable) (selection : gmap string positive)
    : failure + ModelInstance :=
  build_items t (base t) (map_to_list selection).

(** [build] run with the selection's entries taken in any order. *)
Definition builds (t : RawInputTable) (selection : gmap string positive)
    (r : failure + ModelInstance) : Prop :=
  ∃ items, items ≡ₚ map_to_list selection ∧ r = build_items t (base t) items.

Definition counts (m : ModelInstance) : nat * nat :=
  (length (variables m), length (constraints m)).

(** What is compared between two builds: the failure, or the numbers of
    variables and constraints. *)
Definition outline (r : failure + ModelInstance) : failure + nat * nat :=
  match r with
  | inr m => inr (counts m)
  | inl e => inl e
  end.

(** The constraints that no installation of [items] removes. *)
Definition survives (items : list (string * positive)) (c : constraint) : Prop :=
  c ∉ (λ it : string * positive, PassThrough it.1) <$> items.

(** The per-site sizing sub-problem, fed with the node's boundary values
    and the number of stages. *)
Variable size_unit : list (string * option Qc) → nat → Qc.

(** The boundary values of a site: its node's variables with their
    values. *)
Definition boundary (m : ModelInstance) (s : string) : list (string * option Qc) :=
  (λ v, (v_name v, v_value v)) <$> filter (λ v, v_place v = Node s) (variables m).

(** The number of stages a model has at a site, read off its structure: a
    chain of n stages is held together by n + 1 links. *)
Definition is_wire_at (s : string) (c : constraint) : bool :=
  match c with
  | Wire s' _ => bool_decide (s' = s)
  | _ => false
  end.

Definition wires_at (s : string) (cs : list constraint) : nat :=
  length (filter (λ c, is_wire_at s c) cs).

Definition stages_at (m : ModelInstance) (s : string) : nat :=
  pred (wires_at s (constraints m)).

(** Modelled from the spec: [back_calculate_design] is not among the
    sources. For each site in the selection the design is derived from the
    solved model: the stage count is the number of stages the model has at
    that site, and the unit is sized from the solution's boundary values
    there. The report is keyed by site. *)
Definition backCalculateDesign (m : ModelInstance)
    (selection : gmap string positive) : gmap string design :=
  map_imap (λ s _, Some {| d_stages := stages_at m s;
                           d_area := size_unit (boundary m s) (stages_at m s) |})
    selection.




End Build.

(** A plain network: every site has an inlet and an outlet flow and passes
    the one through to the other. *)
Definition node_variables (s : string) : list variable :=
  [ {| v_place := Node s; v_name := "inlet"; v_domain := ContinuousUnbounded;
       v_value := None |};
    {| v_place := Node s; v_name := "outlet"; v_domain := ContinuousUnbounded;
       v_value := None |} ].

Definition plain_network (site_set : string) (t : RawInputTable) : ModelInstance := {|
  variables := sites site_set t ≫= node_variables;
  constraints := PassThrough <$> sites site_set t;
  objective := "network_cost";
|}.

(** A small instance: two sites, a unit with three variables and two
    equations per stage, at most four stages. *)
Definition demo_table : RawInputTable := {|
  sets := {[ "sites" := ["R01_IN"; "R02_IN"] ]};
  parameters := ∅;
|}.

Definition demo_base : RawInputTable → ModelInstance := plain_network "sites".

Definition demo_unit : unit_model := {|
  unit_variables := [ ("feed", ContinuousUnbounded);
                      ("vapor", ContinuousUnbounded);
                      ("on", Binary) ];
  unit_equations := [ ("mass_balance", Equality); ("area_bound", Inequality) ];
  max_stages := 4;
|}.

Definition demo_size (b : list (string * option Qc)) (n : nat) : Qc :=
  foldr (λ nv acc, default 0 nv.2 + acc) 0 b / Qc_of_Z (Z.of_nat n).

Definition give_value (q : Qc) (v : variable) : variable :=
  {| v_place := v_place v; v_name := v_name v; v_domain := v_domain v;
     v_value := Some q |}.

Definition solved_like (m : ModelInstance) : ModelInstance := {|
  variables := give_value 1 <$> variables m;
  constraints := constraints m;
  objective := objective m;
|}.

Definition demo_selection : gmap string positive :=
  {[ "R01_IN" := 1%positive; "R02_IN" := 2%positive ]}.


Definition unknown_site : gmap string positive := {[ "R09_IN" := 2%positive ]}.

Definition demo_built : ModelInstance :=
  install demo_unit "R01_IN" 1 (demo_base demo_table).

End Harness.

(** * Properties *)

(** ** The integrated desalination notebook *)

Section IntegratedFacts.
Import Pyomo Integrated.


Lemma value_sum_from {A} (g : A → result expr) (f : A → Qc) xs :
  (∀ x, x ∈ xs → ∃ e, g x = Ok e ∧ value e = Ok (f x)) →
  ∀ acc a, value acc = Ok a →
  ∃ e, sum_from acc g xs = Ok e ∧ value e = Ok (a + total f xs).
Proof.
  induction xs as [|x xs IH]; intros Hg acc a Hacc; simpl.
  - exists acc. split; [done|]. rewrite Hacc. f_equal. ring.
  - destruct (Hg x) as (e & Hx & Hv); [left|].
    rewrite Hx. simpl.
    destruct (IH (λ y Hy, Hg y (list_elem_of_further _ _ _ Hy)) (Add acc e) (a + f x))
      as (e' & Hs & Hv').
    { simpl. rewrite Hacc, Hv. done. }
    exists e'. split; [done|]. rewrite Hv'. f_equal. ring.
Qed.

Lemma value_py_sum {A} (g : A → result expr) (f : A → Qc) xs :
  (∀ x, x ∈ xs → ∃ e, g x = Ok e ∧ value e = Ok (f x)) →
  ∃ e, py_sum g xs = Ok e ∧ value e = Ok (total f xs).
Proof.
  intros Hg. destruct (value_sum_from g f xs Hg (Num 0) 0 eq_refl) as (e & He & Hv).
  exists e. split; [done|]. rewrite Hv. f_equal. ring.
Qed.

Lemma has_value_spec (c : option component) :
  has_value c = true → ∃ q, c = Some (Some q).
Proof. destruct c as [[q|]|]; try discriminate. eauto. Qed.

Lemma getitem_Some `{Countable K} (c : gmap K component) k d :
  c !! k = Some d → getitem c k = Ok (Leaf d).
Proof. unfold getitem. by intros ->. Qed.

Lemma opex_at_Some m s t q : OPEX m !! (s, t) = Some (Some q) → opex_at m s t = q.
Proof. unfold opex_at. by intros ->. Qed.

Lemma capex_at_Some m s q : CAPEX m !! s = Some (Some q) → capex_at m s = q.
Proof. unfold capex_at. by intros ->. Qed.

Lemma readable_spec m :
  readable m = true →
  let n := m_network m in
  is_Some (arc_cost n) ∧ is_Some (disp_cost n) ∧ is_Some (fresh_cost n)
  ∧ is_Some (stor_cost n) ∧ is_Some (stor_rev n) ∧ is_Some (treat_rev n)
  ∧ is_Some (p_dt n)
  ∧ (∀ s, s ∈ desalination_nodes n → has_value (CAPEX m !! s) = true)
  ∧ (∀ s t, s ∈ desalination_nodes n → t ∈ s_T n →
       has_value (OPEX m !! (s, t)) = true).
Proof.
  unfold readable. intros H.
  repeat (apply andb_prop in H; destruct H as [H ?]).
  repeat match goal with
         | B : bool_decide _ = true |- _ => apply bool_decide_eq_true in B
         end.
  rewrite forallb_forall in *.
  repeat split; try done.
  - intros s Hs. apply list_elem_of_In in Hs.
    match goal with F : ∀ x, In x _ → _ |- _ => specialize (F s Hs) end.
    by apply andb_prop in H0 as [? _].
  - intros s t Hs Ht. apply list_elem_of_In in Hs, Ht.
    match goal with F : ∀ x, In x _ → _ |- _ => specialize (F s Hs) end.
    apply andb_prop in H0 as [_ F]. rewrite forallb_forall in F. by apply F.
Qed.

Lemma opex_value m :
  readable m = true →
  ∃ e, opex_expr m = Ok e
       ∧ value e = Ok (total (λ s, total (λ t,
                     opex_at m s t / c365 * val (p_dt (m_network m)))
                     (s_T (m_network m))) (desalination_nodes (m_network m))).
Proof.
  intros Hr. destruct (readable_spec m Hr) as (_&_&_&_&_&_&[p Hp]&_&Ho).
  unfold opex_expr. apply value_py_sum. intros s Hs.
  apply value_py_sum. intros t Ht.
  destruct (has_value_spec _ (Ho s t Hs Ht)) as [q Hq].
  cbv beta. rewrite (getitem_Some _ _ _ Hq), (opex_at_Some _ _ _ _ Hq), Hp.
  eexists. split; [done|]. by simpl.
Qed.

Lemma capex_value m :
  readable m = true →
  ∃ e, capex_expr m = Ok e
       ∧ value e = Ok (total (capex_at m) (desalination_nodes (m_network m))
                       / c365 * val (p_dt (m_network m))
                       * Qc_of_Z (Z.of_nat (length (s_T (m_network m))))).
Proof.
  intros Hr. destruct (readable_spec m Hr) as (_&_&_&_&_&_&[p Hp]&Hc&_).
  unfold capex_expr.
  destruct (value_py_sum (λ s, getitem (CAPEX m) s) (capex_at m)
              (desalination_nodes (m_network m))) as (e & He & Hv).
  { intros s Hs. destruct (has_value_spec _ (Hc s Hs)) as [q Hq].
    cbv beta. rewrite (getitem_Some _ _ _ Hq), (capex_at_Some _ _ _ Hq). eauto. }
  rewrite He. simpl. eexists. split; [done|]. simpl.
  by rewrite Hv, Hp.
Qed.

(** Running a cell one statement at a time. *)

Lemma run_emit {B} l (f : unit → cell B) k :
  (emit l ≫= f) k = f tt (append_out k [l]).
Proof. reflexivity. Qed.

Lemma run_emit_last l k : emit l k = (append_out k [l], Ok tt).
Proof. reflexivity. Qed.

Lemma run_get_m {B} (f : model → cell B) k : (get_m ≫= f) k = f (k_m k) k.
Proof. reflexivity. Qed.

Lemma run_lift {A B} (r : result A) (f : A → cell B) k a :
  r = Ok a → (lift r ≫= f) k = f a k.
Proof. by intros ->. Qed.

Lemma append_out_app k a b :
  append_out (append_out k a) b = append_out k (a ++ b).
Proof. unfold append_out. simpl. by rewrite app_assoc. Qed.

Lemma k_m_append_out k ls : k_m (append_out k ls) = k_m k.
Proof. reflexivity. Qed.

Ltac run_prints :=
  repeat (rewrite run_emit; cbv beta; rewrite ?append_out_app).

Ltac run_read H :=
  rewrite (run_lift _ _ _ _ H); cbv beta.

(** On a readable model the results cell runs to its end and prints
    [printed]. *)
Lemma results_cell_readable k :
  readable (k_m k) = true →
  results_cell k = (append_out k (printed (k_m k)), Ok tt).
Proof.
  intros Hr.
  destruct (opex_value _ Hr) as (eo & Heo & Hvo).
  destruct (capex_value _ Hr) as (ec & Hec & Hvc).
  destruct (readable_spec _ Hr)
    as ([a Ha]&[d Hd]&[f Hf]&[sc Hsc]&[sr Hsr]&[tr Htr]&_).
  assert (Ho : opex_expr (k_m k) ≫= value = Ok
            (total (λ s, total (λ t,
               opex_at (k_m k) s t / c365 * val (p_dt (m_network (k_m k))))
               (s_T (m_network (k_m k))))
               (desalination_nodes (m_network (k_m k)))))
    by (by rewrite Heo).
  assert (Hc : capex_expr (k_m k) ≫= value = Ok
            (total (capex_at (k_m k)) (desalination_nodes (m_network (k_m k)))
             / c365 * val (p_dt (m_network (k_m k)))
             * Qc_of_Z (Z.of_nat (length (s_T (m_network (k_m k)))))))
    by (by rewrite Hec).
  unfold results_cell, print_str, print_num.
  run_prints. rewrite run_get_m; cbv beta. rewrite k_m_append_out.
  run_read (f_equal (λ c, value (Leaf c)) Ha). run_prints.
  run_read (f_equal (λ c, value (Leaf c)) Hd). run_prints.
  run_read (f_equal (λ c, value (Leaf c)) Hf). run_prints.
  run_read (f_equal (λ c, value (Leaf c)) Hsc). run_prints.
  run_read (f_equal (λ c, value (Leaf c)) Hsr). run_prints.
  run_read (f_equal (λ c, value (Leaf c)) Htr). run_prints.
  run_read Ho. run_prints.
  run_read Hc. run_prints.
  rewrite run_emit_last.
  rewrite append_out_app. unfold printed.
  cbv zeta. rewrite Ha, Hd, Hf, Hsc, Hsr, Htr. reflexivity.
Qed.

(** Cells that only read the model and print. *)

Lemma append_out_nil k : append_out k [] = k.
Proof. destruct k. unfold append_out. simpl. by rewrite app_nil_r. Qed.

Lemma read_only_ret {A} (a : A) : read_only (mret a).
Proof.
  intros m. exists [], (Ok a). intros k _.
  by rewrite append_out_nil.
Qed.

Lemma read_only_lift {A} (r : result A) : read_only (lift r).
Proof.
  intros m. exists [], r. intros k _. unfold lift.
  by rewrite append_out_nil.
Qed.

Lemma read_only_get_m : read_only get_m.
Proof.
  intros m. exists [], (Ok m). intros k <-. unfold get_m.
  by rewrite append_out_nil.
Qed.

Lemma read_only_emit l : read_only (emit l).
Proof. intros m. exists [l], (Ok tt). by intros k _. Qed.

Lemma read_only_bind {A B} (c : cell A) (f : A → cell B) :
  read_only c → (∀ a, read_only (f a)) → read_only (c ≫= f).
Proof.
  intros Hc Hf m. destruct (Hc m) as (ls & r & Hrun).
  destruct r as [a|e].
  - destruct (Hf a m) as (ls' & r' & Hrun').
    exists (ls ++ ls'), r'. intros k Hk.
    unfold mbind, cell_bind. rewrite (Hrun k Hk).
    rewrite (Hrun' (append_out k ls)) by done.
    by rewrite append_out_app.
  - exists ls, (Raise e). intros k Hk.
    unfold mbind, cell_bind. by rewrite (Hrun k Hk).
Qed.

Lemma read_only_results_cell : read_only results_cell.
Proof.
  unfold results_cell, print_str, print_num.
  repeat first
    [ apply read_only_emit
    | apply read_only_lift
    | apply read_only_get_m
    | apply read_only_bind; [|intros ?] ].
Qed.

(** The outcome of [extract] is a function of the model alone. *)
Lemma extract_of_model m :
  ∃ ls r, ∀ k, k_m k = m → extract k = (append_out (clear_output k) ls, r).
Proof.
  destruct (read_only_results_cell m) as (ls & r & Hrun).
  exists ls, (match r with
              | Ok _ => Ok (list_to_map (labelled ls))
              | Raise e => Raise e
              end).
  intros k Hk. unfold extract.
  rewrite (Hrun (clear_output k)) by done.
  by destruct r.
Qed.

Lemma extract_again k : (extract (extract k).1).2 = (extract k).2.
Proof.
  destruct (extract_of_model (k_m k)) as (ls & r & Hrun).
  rewrite (Hrun k eq_refl). simpl.
  by rewrite (Hrun (append_out (clear_output k) ls)).
Qed.

Lemma extract_readable k :
  readable (k_m k) = true →
  extract k = (append_out (clear_output k) (printed (k_m k)),
               Ok (list_to_map (labelled (printed (k_m k))))).
Proof.
  intros Hr. unfold extract.
  by rewrite (results_cell_readable (clear_output k)).
Qed.

Lemma report_lookup m (f : field) :
  (list_to_map (labelled (printed m)) : gmap string Qc) !! caption f
  = Some (match f with
          | TreatmentOpex => stated_treatment_opex m
          | TreatmentCapex => stated_treatment_capex m
          | _ => val (network_quantity f (m_network m))
          end).
Proof. destruct f; reflexivity. Qed.

(** The instance by hand: OPEX 1000 * (730/365*7 + 365/365*7) = 21000 and
    CAPEX 1000 * (3650/365*7*2) = 140000. *)
Example demo_treatment_opex : stated_treatment_opex demo_model = Qc_of_Z 21000.
Proof. apply Qc_is_canon. reflexivity. Qed.

Example demo_treatment_capex : stated_treatment_capex demo_model = Qc_of_Z 140000.
Proof. apply Qc_is_canon. reflexivity. Qed.

Example sum_shape (a b : expr) :
  py_sum (λ e : expr, Ok e) [a; b] = Ok (Add (Add (Num 0) a) b).
Proof. reflexivity. Qed.

(** Where a value or an index is missing the cell stops at that line, with
    the caption already printed. *)
Example missing_index_raises :
  (extract demo_missing_index).2 = Raise KeyError
  ∧ last (k_out (extract demo_missing_index).1)
    = Some (LText "Treatment cost - OPEX").
Proof. split; reflexivity. Qed.

Example unassigned_value_raises :
  (extract demo_unassigned).2 = Raise ValueError
  ∧ last (k_out (extract demo_unassigned).1) = Some (LText "Piping cost").
Proof. split; reflexivity. Qed.

(** C5: on every solved model, one whose quantities all have values, the
    results cell runs to its end and the report read off its output has a
    value under each of the eight captions: piping/arc cost, disposal cost,
    freshwater cost, storage cost, storage revenue, treatment revenue,
    treatment OPEX and treatment CAPEX. *)
Theorem report_has_all_fields k :
  readable (k_m k) = true →
  ∃ r, (extract k).2 = Ok r ∧ ∀ f : field, is_Some (r !! caption f).
Proof.
  intros Hr. rewrite (extract_readable k Hr). cbn [snd].
  eexists. split; [done|]. intros f. rewrite report_lookup. eauto.
Qed.

Lemma report_has_all_fields_demo :
  readable (k_m demo_kernel) = true
  ∧ ∃ r, (extract demo_kernel).2 = Ok r ∧ ∀ f : field, is_Some (r !! caption f).
Proof.
  split; [reflexivity | apply (report_has_all_fields demo_kernel); reflexivity].
Defined.

(** C10: in the report of a readable model the treatment OPEX field is
    1000 times the sum over desalination sites and time periods of
    OPEX[s,t]/365 times p_dt, the treatment CAPEX field is 1000 times the sum
    over desalination sites of CAPEX[s], divided by 365, times p_dt and times
    the number of time periods, and each of the six network cost fields is
    the value of the model quantity itself. *)
Theorem report_field_values k :
  readable (k_m k) = true →
  ∃ r, (extract k).2 = Ok r
       ∧ r !! caption TreatmentOpex = Some (stated_treatment_opex (k_m k))
       ∧ r !! caption TreatmentCapex = Some (stated_treatment_capex (k_m k))
       ∧ ∀ f, is_network_field f = true →
              r !! caption f = network_quantity f (m_network (k_m k)).
Proof.
  intros Hr. rewrite (extract_readable k Hr). cbn [snd].
  eexists. split; [done|].
  repeat split; try apply report_lookup.
  intros f Hf. rewrite report_lookup.
  destruct (readable_spec _ Hr) as ([a Ha]&[d Hd]&[fr Hfr]&[sc Hsc]&[sr Hsr]&[tr Htr]&_).
  destruct f; try discriminate; simpl;
    rewrite ?Ha, ?Hd, ?Hfr, ?Hsc, ?Hsr, ?Htr; done.
Qed.

Lemma report_field_values_demo :
  readable (k_m demo_kernel) = true
  ∧ ∃ r, (extract demo_kernel).2 = Ok r
       ∧ r !! caption TreatmentOpex = Some (stated_treatment_opex (k_m demo_kernel))
       ∧ r !! caption TreatmentCapex = Some (stated_treatment_capex (k_m demo_kernel))
       ∧ ∀ f, is_network_field f = true →
              r !! caption f = network_quantity f (m_network (k_m demo_kernel)).
Proof.
  split; [reflexivity | apply (report_field_values demo_kernel); reflexivity].
Defined.

(** C8: on a solved model, two runs of the results cell in a row, with no
    solve in between, both return a report, and the two reports are equal. *)
Theorem extract_twice_same k :
  readable (k_m k) = true →
  ∃ r, (extract k).2 = Ok r ∧ (extract (extract k).1).2 = Ok r.
Proof.
  intros Hr. exists (list_to_map (labelled (printed (k_m k)))).
  rewrite extract_again. by rewrite (extract_readable k Hr).
Qed.

Lemma extract_twice_same_demo :
  readable (k_m demo_kernel) = true
  ∧ ∃ r, (extract demo_kernel).2 = Ok r
         ∧ (extract (extract demo_kernel).1).2 = Ok r.
Proof.
  split; [reflexivity | apply (extract_twice_same demo_kernel); reflexivity].
Defined.

(** C1, as stated, fails: after a solve that reported infeasibility, and
    after one that crashed, the results cell still returns a report, with the
    values the model holds. *)
Lemma extract_after_failed_solve :
  k_last after_infeasible = Some Infeasible
  ∧ k_last after_crash = Some SolverError
  ∧ (∃ r, (extract after_infeasible).2 = Ok r
          ∧ r !! caption ArcCost = Some (Qc_of_Z 120))
  ∧ (∃ r, (extract after_crash).2 = Ok r
          ∧ r !! caption ArcCost = Some (Qc_of_Z 120)).
Proof.
  repeat split; try reflexivity.
  - rewrite (extract_readable after_infeasible) by reflexivity. cbn [snd].
    eexists. split; [done|]. by rewrite report_lookup.
  - rewrite (extract_readable after_crash) by reflexivity. cbn [snd].
    eexists. split; [done|]. by rewrite report_lookup.
Qed.

(** C1, amended: the results cell does not consult the termination class.
    On every readable model it returns the report of the values the model
    currently holds, whatever the class of the most recent solve, Infeasible
    and SolverError included, and it leaves that class as it was. *)
Theorem extract_whatever_status k st :
  readable (k_m k) = true →
  k_last k = Some st →
  (extract k).2 = Ok (list_to_map (labelled (printed (k_m k))))
  ∧ k_last (extract k).1 = Some st.
Proof.
  intros Hr Hst. rewrite (extract_readable k Hr). by split.
Qed.

Lemma extract_whatever_status_infeasible :
  readable (k_m after_infeasible) = true
  ∧ k_last after_infeasible = Some Infeasible
  ∧ (extract after_infeasible).2
    = Ok (list_to_map (labelled (printed (k_m after_infeasible))))
  ∧ k_last (extract after_infeasible).1 = Some Infeasible.
Proof.
  split; [reflexivity|]. split; [reflexivity|].
  apply (extract_whatever_status after_infeasible Infeasible); reflexivity.
Defined.

(** C6: the solve cell calls the external solver exactly once, with the
    options mu_init = 1e-6 and bound_push = 1e-6 on the model at hand; the
    outcome of that one call, failure included, is the outcome of the cell,
    and the model is left as that call left it. *)
Theorem solve_cell_single_call nlp k :
  k_calls (solve_cell nlp k).1 = k_calls k ++ [the_call (k_m k)]
  ∧ (solve_cell nlp k).2 = (nlp (the_call (k_m k))).2
  ∧ k_m (solve_cell nlp k).1 = (nlp (the_call (k_m k))).1.
Proof.
  unfold solve_cell, ipopt_set_option, ipopt_solve, mbind, cell_bind.
  cbn -[insert]. unfold call_solver. cbn -[insert].
  fold (the_call (k_m k)). by destruct (nlp (the_call (k_m k))) as [m' r].
Qed.

End IntegratedFacts.

(** ** Build and back-calculation *)

Section HarnessFacts.
Import Harness.

Variable um : unit_model.
Variable site_set : string.
Variable base : RawInputTable → ModelInstance.

#[local] Abbreviation acceptable := (acceptable um site_set).
#[local] Abbreviation add_site := (add_site um site_set).
#[local] Abbreviation build_items := (build_items um site_set).
#[local] Abbreviation install_item := (install_item um).
#[local] Abbreviation build := (build um site_set base).
#[local] Abbreviation builds := (builds um site_set base).

Lemma add_site_acceptable t acc item :
  acceptable t item → add_site t acc item = inr (install_item acc item).
Proof.
  intros [Hs Hn]. unfold add_site.
  rewrite decide_True by done. by rewrite decide_True by done.
Qed.

Lemma add_site_rejected t acc item :
  ¬ acceptable t item → add_site t acc item = inl ConfigurationError.
Proof.
  intros Hno. unfold add_site.
  destruct (decide (item.1 ∈ sites site_set t)); [|done].
  destruct (decide (item.2 ≤ max_stages um)%positive); [|done].
  by destruct Hno.
Qed.

#[local] Instance acceptable_dec t item : Decision (acceptable t item).
Proof. unfold Harness.acceptable. apply _. Defined.

Lemma build_items_acceptable t items acc :
  Forall (acceptable t) items →
  build_items t acc items = inr (foldl install_item acc items).
Proof.
  intros Hall. revert acc.
  induction Hall as [|item rest Hit _ IH]; intros acc; simpl; [done|].
  by rewrite (add_site_acceptable _ _ _ Hit).
Qed.

Lemma build_items_rejected t items acc :
  ¬ Forall (acceptable t) items →
  build_items t acc items = inl ConfigurationError.
Proof.
  revert acc. induction items as [|item rest IH]; intros acc Hno; simpl.
  - by destruct Hno.
  - destruct (decide (acceptable t item)) as [Hit|Hit].
    + rewrite (add_site_acceptable _ _ _ Hit). apply IH.
      intros Hrest. apply Hno. by constructor.
    + by rewrite (add_site_rejected _ _ _ Hit).
Qed.

(** The variables and constraints of the model after the chains of [items]
    are installed. *)
Lemma foldl_install_variables items acc :
  variables (foldl install_item acc items)
  = variables acc ++ (items ≫= λ it, chain_variables um it.1 (Pos.to_nat it.2)).
Proof.
  revert acc. induction items as [|it rest IH]; intros acc; simpl.
  - by rewrite app_nil_r.
  - rewrite IH. simpl. by rewrite <- app_assoc.
Qed.

Lemma filter_all {A} (P : A → Prop) `{∀ x, Decision (P x)} (l : list A) :
  Forall P l → filter P l = l.
Proof.
  induction 1 as [|x l Hx _ IH]; [done|].
  by rewrite filter_cons_True, IH.
Qed.

Lemma chain_constraints_fresh s n c s' :
  c ∈ chain_constraints um s n → c ≠ PassThrough s'.
Proof.
  unfold chain_constraints, stage_equations. intros Hc ->.
  apply elem_of_app in Hc as [Hc|Hc].
  - apply list_elem_of_bind in Hc as (i & Hc & _).
    by apply list_elem_of_fmap in Hc as (nr & ? & _).
  - by apply list_elem_of_fmap in Hc as (i & ? & _).
Qed.

Lemma foldl_install_constraints items acc :
  constraints (foldl install_item acc items)
  = filter (survives items) (constraints acc)
    ++ (items ≫= λ it, chain_constraints um it.1 (Pos.to_nat it.2)).
Proof.
  revert acc. induction items as [|it rest IH]; intros acc; simpl.
  - rewrite app_nil_r. symmetry. apply filter_all, Forall_forall.
    intros c _. unfold survives. simpl. apply not_elem_of_nil.
  - rewrite IH. simpl. rewrite filter_app, <- app_assoc. f_equal.
    + rewrite list_filter_filter. apply list_filter_iff. intros c.
      unfold survives. rewrite fmap_cons, not_elem_of_cons. tauto.
    + f_equal. apply filter_all, Forall_forall. intros c Hc.
      unfold survives. intros Hin.
      apply list_elem_of_fmap in Hin as (it' & -> & _).
      exact (chain_constraints_fresh _ _ _ _ Hc eq_refl).
Qed.

Lemma foldl_install_counts items1 items2 acc :
  items1 ≡ₚ items2 →
  counts (foldl install_item acc items1) = counts (foldl install_item acc items2).
Proof.
  intros Hp. unfold counts.
  rewrite !foldl_install_variables, !foldl_install_constraints.
  rewrite !length_app. f_equal.
  - f_equal. apply Permutation_length. by rewrite Hp.
  - f_equal.
    + f_equal. apply list_filter_iff. intros c. unfold survives. by rewrite Hp.
    + apply Permutation_length. by rewrite Hp.
Qed.

Example demo_build_counts :
  outline (Harness.build demo_unit "sites" demo_base demo_table demo_selection)
  = inr (13, 11)%nat.
Proof. vm_compute. reflexivity. Qed.

Example demo_build_too_many_stages :
  Harness.build demo_unit "sites" demo_base demo_table {[ "R01_IN" := 5%positive ]}
  = inl ConfigurationError.
Proof. vm_compute. reflexivity. Qed.

(** C3: two builds from equal tables and equal selections, whatever the
    order in which each takes the selection's entries, either both fail in
    the same way or give models with the same number of variables and the
    same number of constraints. *)
Theorem build_structure_deterministic t1 t2 sel1 sel2 r1 r2 :
  t1 = t2 → sel1 = sel2 →
  builds t1 sel1 r1 →
  builds t2 sel2 r2 →
  outline r1 = outline r2.
Proof.
  intros <- <- (items1 & Hp1 & ->) (items2 & Hp2 & ->).
  assert (Hp : items1 ≡ₚ items2) by (by rewrite Hp1, Hp2).
  destruct (decide (Forall (acceptable t1) items1)) as [Hall|Hno].
  - rewrite (build_items_acceptable _ _ _ Hall).
    rewrite Hp in Hall. rewrite (build_items_acceptable _ _ _ Hall).
    simpl. f_equal. by apply foldl_install_counts.
  - rewrite (build_items_rejected _ _ _ Hno).
    rewrite Hp in Hno. by rewrite (build_items_rejected _ _ _ Hno).
Qed.

(** C4: when the selection names a site that is not in the network's site
    set, [build] fails with [ConfigurationError], whatever the order in which
    the entries are taken; the result carries no model. *)
Theorem build_rejects_unknown_site t sel s n :
  sel !! s = Some n →
  s ∉ sites site_set t →
  build t sel = inl ConfigurationError
  ∧ ∀ r, builds t sel r → r = inl ConfigurationError.
Proof.
  intros Hsel Hs.
  assert (Hany : ∀ items, items ≡ₚ map_to_list sel →
            build_items t (base t) items = inl ConfigurationError).
  { intros items Hp. apply build_items_rejected. intros Hall.
    rewrite Forall_forall in Hall.
    destruct (Hall (s, n)) as [Hin _]; [|done].
    rewrite Hp. by apply elem_of_map_to_list. }
  split.
  - by apply Hany.
  - intros r (items & Hp & ->). by apply Hany.
Qed.









End HarnessFacts.

Section HarnessWitnesses.
Import Harness.

Lemma build_structure_deterministic_demo :
  builds demo_unit "sites" demo_base demo_table demo_selection
    (build_items demo_unit "sites" demo_table (demo_base demo_table)
       [("R01_IN", 1%positive); ("R02_IN", 2%positive)])
  ∧ builds demo_unit "sites" demo_base demo_table demo_selection
      (build_items demo_unit "sites" demo_table (demo_base demo_table)
         [("R02_IN", 2%positive); ("R01_IN", 1%positive)])
  ∧ outline
      (build_items demo_unit "sites" demo_table (demo_base demo_table)
         [("R01_IN", 1%positive); ("R02_IN", 2%positive)])
    = outline
        (build_items demo_unit "sites" demo_table (demo_base demo_table)
           [("R02_IN", 2%positive); ("R01_IN", 1%positive)]).
Proof.
  assert (E : map_to_list demo_selection
              = [("R01_IN", 1%positive); ("R02_IN", 2%positive)])
    by (vm_compute; reflexivity).
  assert (B1 : builds demo_unit "sites" demo_base demo_table demo_selection
    (build_items demo_unit "sites" demo_table (demo_base demo_table)
       [("R01_IN", 1%positive); ("R02_IN", 2%positive)])).
  { eexists. split; [|reflexivity]. by rewrite E. }
  assert (B2 : builds demo_unit "sites" demo_base demo_table demo_selection
    (build_items demo_unit "sites" demo_table (demo_base demo_table)
       [("R02_IN", 2%positive); ("R01_IN", 1%positive)])).
  { eexists. split; [|reflexivity]. rewrite E. apply Permutation_swap. }
  split; [exact B1|]. split; [exact B2|].
  exact (build_structure_deterministic demo_unit "sites" demo_base demo_table demo_table
           demo_selection demo_selection _ _ eq_refl eq_refl B1 B2).
Defined.

Lemma build_rejects_unknown_site_demo :
  unknown_site !! "R09_IN" = Some 2%positive
  ∧ ("R09_IN" ∉ sites "sites" demo_table)
  ∧ build demo_unit "sites" demo_base demo_table unknown_site = inl ConfigurationError
  ∧ ∀ r, builds demo_unit "sites" demo_base demo_table unknown_site r →
         r = inl ConfigurationError.
Proof.
  assert (H1 : unknown_site !! "R09_IN" = Some 2%positive) by reflexivity.
  assert (H2 : "R09_IN" ∉ sites "sites" demo_table).
  { refine (bool_decide_unpack _ _). vm_compute. exact I. }
  split; [exact H1|]. split; [exact H2|].
  exact (build_rejects_unknown_site demo_unit "sites" demo_base demo_table _ _ _ H1 H2).
Defined.


(** The report follows the model, not the selection it is handed: a model
    built with one stage reports one stage also under a selection that
    names three. *)
Example report_follows_model :
  d_stages <$> (backCalculateDesign demo_size (solved_like demo_built)
                  {[ "R01_IN" := 3%positive ]} !! "R01_IN")
  = Some 1%nat.
Proof. vm_compute. reflexivity. Qed.

End HarnessWitnesses.

(** ** The membrane distillation notebook *)

Section MDFacts.
Import MD.

Lemma recovery_cell_max nb sw :
  salinity_widget nb = Some sw →
  ∃ w, recovery_widget (recovery_cell nb) = Some w
       ∧ max w = recovery_bound (value sw).
Proof.
  intros Hs. unfold recovery_cell. rewrite Hs. simpl.
  eexists. split; [done|]. reflexivity.
Qed.

Lemma move_salinity_keeps_recovery md nb v :
  recovery_widget (react md nb (MoveSalinity v)) = recovery_widget nb.
Proof. simpl. by destruct (salinity_widget nb). Qed.

Lemma set_value_max w v : max (set_value w v) = max w.
Proof. reflexivity. Qed.

(** A slider keeps whatever is proposed within its own bounds. *)
Lemma set_value_within w v :
  min w ≤ max w → min w ≤ value (set_value w v) ∧ value (set_value w v) ≤ max w.
Proof.
  intros Hw. unfold set_value, cap_floor, py_min, py_max. simpl.
  repeat case_decide; split;
    eauto using Qcle_refl, Qclt_le_weak, Qcnot_lt_le.
Qed.

Example capped_at_creation_bound :
  value (set_value recovery_set_early (q 95 100)) = max recovery_set_early.
Proof. reflexivity. Qed.

Lemma keeps_log_ret {A} (a : A) : keeps_log (mret a).
Proof. by intros nb x Hx. Qed.

Lemma keeps_log_global {A} (read : notebook → option A) : keeps_log (global read).
Proof. intros nb x Hx. unfold global. by destruct (read nb). Qed.

Lemma keeps_log_call {A} c (r : result A) : keeps_log (call c r).
Proof. intros nb x Hx. simpl. apply elem_of_app. by left. Qed.

Lemma keeps_log_bind {A B} (c : act A) (f : A → act B) :
  keeps_log c → (∀ a, keeps_log (f a)) → keeps_log (c ≫= f).
Proof.
  intros Hc Hf nb x Hx. unfold mbind, act_bind.
  specialize (Hc nb x Hx). destruct (c nb) as [nb' [a|e]]; [|done].
  by apply Hf.
Qed.

Lemma keeps_log_when b (c : act unit) : keeps_log c → keeps_log (when b c).
Proof. intros Hc. destruct b; [done | apply keeps_log_ret]. Qed.

Ltac solve_keeps_log :=
  repeat first
    [ apply keeps_log_ret
    | apply keeps_log_global
    | apply keeps_log_call
    | apply keeps_log_when
    | apply keeps_log_bind; [|intros ?] ].

(** Once the flowsheet is built, [run_simulation] hands the recovery
    slider's current value to [set_operating_conditions]. *)
Lemma run_simulation_passes_recovery md fs nb w salinity flowrate :
  build md = Ok fs →
  recovery_widget nb = Some w →
  CSetOperatingConditions flowrate salinity (value w)
    ∈ md_calls (run_simulation md salinity flowrate nb).1.
Proof.
  intros Hb Hw.
  assert (Hk : ∀ model,
    keeps_log (model ← call CInitializeSystem (initialize_system md model);
               model ← call COptimizeSetUp (optimize_set_up md model);
               model ← call CSolve (solve md model);
               mret model)) by (intros; solve_keeps_log).
  unfold run_simulation, mbind at 1 2 3, act_bind, call at 1 2, global.
  rewrite Hb. cbn [md_calls recovery_widget with_calls]. rewrite Hw.
  destruct (set_operating_conditions md fs flowrate salinity (value w)) as [fs'|e].
  - apply Hk. cbn [md_calls]. set_solver.
  - cbn [fst md_calls]. set_solver.
Qed.

Lemma click_passes_recovery md fs nb s f w :
  build md = Ok fs →
  run_button nb = true →
  run_simulation_defined nb = true →
  salinity_widget nb = Some s →
  flowrate_widget nb = Some f →
  recovery_widget nb = Some w →
  CSetOperatingConditions (value f) (value s) (value w)
    ∈ md_calls (react md nb Click).
Proof.
  intros Hb Hbtn Hdef Hs Hf Hw. cbn [react]. rewrite Hbtn.
  unfold on_run_button_clicked, mbind at 1 2 3 4, act_bind, global at 1 2 3.
  rewrite Hdef, Hs, Hf. cbn [fst snd].
  pose proof (run_simulation_passes_recovery md fs nb w (value s) (value f) Hb Hw) as Hin.
  destruct (run_simulation md (value s) (value f) nb) as [nb' [model|e]]; [|done].
  revert Hin. generalize (CSetOperatingConditions (value f) (value s) (value w)).
  intros x Hx. revert nb' x Hx.
  change (keeps_log (
    b ← global boxes;
    when (system_checkbox b) (call CDisplaySystem (display_system md model));;
    b ← global boxes;
    when (design_checkbox b) (call CDisplayDesign (display_design md model));;
    b ← global boxes;
    when (state_checkbox b) (call CDisplayState (display_state md model));;
    b ← global boxes;
    when (detailed_cost_checkbox b)
      (call CDisplayDetailedCosts (display_detailed_costs md model)))).
  solve_keeps_log.
Qed.

Lemma session_before_click md :
  run md fresh
    [ RunSlidersCell; RunRecoveryCell; RunDefCell; RunCheckboxCell;
      RunButtonCell; MoveRecovery (q 8 10); MoveSalinity (q 15 100) ]
  = before_click.
Proof. reflexivity. Qed.

(** C9: the recovery slider's upper bound is 1 - salinity/0.3 for the
    salinity at the moment its cell runs; moving the salinity slider later
    leaves the recovery slider, bound included, as it was; and there is a
    session (create both sliders, set recovery to 0.8, raise salinity to
    0.15, click) in which the flowsheet is given overall recovery 0.8 with
    salinity 0.15, strictly above the bound 1 - 0.15/0.3 = 0.5. *)
Theorem recovery_bound_goes_stale md fs :
  build md = Ok fs →
  (∀ nb sw, salinity_widget nb = Some sw →
     ∃ w, recovery_widget (react md nb RunRecoveryCell) = Some w
          ∧ max w = recovery_bound (value sw))
  ∧ (∀ nb v, recovery_widget (react md nb (MoveSalinity v)) = recovery_widget nb)
  ∧ CSetOperatingConditions 1 (q 15 100) (q 8 10)
      ∈ md_calls (run md fresh raise_salinity_late)
  ∧ recovery_bound (q 15 100) < q 8 10.
Proof.
  intros Hb. split; [|split; [|split; [|reflexivity]]].
  - intros nb sw Hs. by apply recovery_cell_max.
  - apply move_salinity_keeps_recovery.
  - 
    change (run md fresh raise_salinity_late)
      with (react md (run md fresh
              [ RunSlidersCell; RunRecoveryCell; RunDefCell; RunCheckboxCell;
                RunButtonCell; MoveRecovery (q 8 10); MoveSalinity (q 15 100) ])
              Click).
    rewrite session_before_click.
    by apply (click_passes_recovery md fs before_click
                salinity_raised flowrate_untouched recovery_set_early).
Qed.

Lemma recovery_bound_goes_stale_returning :
  build md_returning = Ok tt
  ∧ (∀ nb sw, salinity_widget nb = Some sw →
       ∃ w, recovery_widget (react md_returning nb RunRecoveryCell) = Some w
            ∧ max w = recovery_bound (value sw))
  ∧ (∀ nb v, recovery_widget (react md_returning nb (MoveSalinity v))
             = recovery_widget nb)
  ∧ CSetOperatingConditions 1 (q 15 100) (q 8 10)
      ∈ md_calls (run md_returning fresh raise_salinity_late)
  ∧ recovery_bound (q 15 100) < q 8 10.
Proof.
  split; [reflexivity | apply (recovery_bound_goes_stale md_returning tt); reflexivity].
Defined.

End MDFacts.

(** ** More on the integrated desalination notebook *)

Section IntegratedMore.
Import Pyomo Integrated.

Lemma run_lift_raise {A B} (e : exn) (f : A → cell B) k :
  (lift (Raise e) ≫= f) k = (k, Raise e).
Proof. reflexivity. Qed.

Lemma getitem_inv `{Countable K} (c : gmap K component) k e :
  getitem c k = Ok e → ∃ d, c !! k = Some d ∧ e = Leaf d.
Proof.
  unfold getitem. destruct (c !! k) as [d|]; [|discriminate].
  intros [= <-]. eauto.
Qed.

Lemma getitem_None `{Countable K} (c : gmap K component) k :
  c !! k = None → getitem c k = Raise KeyError.
Proof. unfold getitem. by intros ->. Qed.

Lemma getitem_cases `{Countable K} (c : gmap K component) k :
  getitem c k = Raise KeyError ∨ is_ok (getitem c k) = true.
Proof. unfold getitem. destruct (c !! k); auto. Qed.

Lemma has_value_intro (c : option component) q :
  c = Some (Some q) → has_value c = true.
Proof. by intros ->. Qed.

(** A sum that was built and evaluated: its start and every element were
    built and evaluated. *)
Lemma value_sum_from_inv {A} (g : A → result expr) xs :
  ∀ acc e v, sum_from acc g xs = Ok e → value e = Ok v →
  is_ok (value acc) = true
  ∧ ∀ x, x ∈ xs → ∃ ex vx, g x = Ok ex ∧ value ex = Ok vx.
Proof.
  induction xs as [|a xs IH]; intros acc e v Hs Hv; simpl in Hs.
  - injection Hs as <-. rewrite Hv. split; [done|]. by intros x Hx%elem_of_nil.
  - destruct (g a) as [ea|] eqn:Ha; [|discriminate]. simpl in Hs.
    destruct (IH _ _ _ Hs Hv) as [Hacc Hrest]. simpl in Hacc.
    destruct (value acc) as [va|]; [|discriminate]. simpl in Hacc.
    destruct (value ea) as [vea|] eqn:Hea; [|discriminate].
    split; [done|]. intros x [->|Hx]%elem_of_cons; eauto.
Qed.

(** A sum whose elements can only raise [e]: it raises [e] or is built; and
    it raises [e] as soon as one element does. *)
Lemma sum_from_cases {A} (g : A → result expr) (e : exn) xs :
  (∀ x, x ∈ xs → g x = Raise e ∨ is_ok (g x) = true) →
  ∀ acc, sum_from acc g xs = Raise e ∨ is_ok (sum_from acc g xs) = true.
Proof.
  induction xs as [|a xs IH]; intros Hg acc; simpl; [by right|].
  destruct (Hg a) as [Ha|Ha]; [left| |].
  - rewrite Ha. by left.
  - destruct (g a) as [ea|]; [|discriminate]. simpl.
    apply IH. intros x Hx. apply Hg. by right.
Qed.

Lemma sum_from_raise {A} (g : A → result expr) (e : exn) xs :
  (∀ x, x ∈ xs → g x = Raise e ∨ is_ok (g x) = true) →
  (∃ x, x ∈ xs ∧ g x = Raise e) →
  ∀ acc, sum_from acc g xs = Raise e.
Proof.
  induction xs as [|a xs IH]; intros Hg (x & Hx & Hr) acc; simpl.
  - by apply elem_of_nil in Hx.
  - destruct (Hg a) as [Ha|Ha]; [left| |].
    + by rewrite Ha.
    + destruct (g a) as [ea|] eqn:Ea; [|discriminate]. simpl.
      apply IH.
      * intros y Hy. apply Hg. by right.
      * apply elem_of_cons in Hx as [->|Hx]; [congruence|eauto].
Qed.


Lemma opex_expr_missing m s t :
  s ∈ desalination_nodes (m_network m) →
  t ∈ s_T (m_network m) →
  OPEX m !! (s, t) = None →
  opex_expr m = Raise KeyError.
Proof.
  intros Hs Ht Hnone.
  assert (Hinner : ∀ s' t', t' ∈ s_T (m_network m) →
    (x ← getitem (OPEX m) (s', t');
     Ok (Mul (Div x (Num c365)) (Leaf (p_dt (m_network m))))) = Raise KeyError
    ∨ is_ok (x ← getitem (OPEX m) (s', t');
             Ok (Mul (Div x (Num c365)) (Leaf (p_dt (m_network m))))) = true).
  { intros s' t' _.
    destruct (getitem_cases (OPEX m) (s', t')) as [->|Hok]; [by left|].
    destruct (getitem (OPEX m) (s', t')); [by right|discriminate]. }
  unfold opex_expr, py_sum. apply sum_from_raise.
  - intros s' _. apply sum_from_cases. intros t' Ht'. by apply Hinner.
  - exists s. split; [done|]. apply sum_from_raise.
    + intros t' Ht'. by apply Hinner.
    + exists t. split; [done|]. cbv beta. by rewrite (getitem_None _ _ Hnone).
Qed.

Lemma opex_ok_inv m v :
  opex_expr m ≫= value = Ok v →
  ∀ s t, s ∈ desalination_nodes (m_network m) → t ∈ s_T (m_network m) →
         has_value (OPEX m !! (s, t)) = true.
Proof.
  intros Hv s t Hs Ht.
  destruct (opex_expr m) as [e|] eqn:He; [|discriminate]. simpl in Hv.
  destruct (value_sum_from_inv _ _ _ _ _ He Hv) as [_ Houter].
  destruct (Houter s Hs) as (es & vs & Hes & Hvs).
  destruct (value_sum_from_inv _ _ _ _ _ Hes Hvs) as [_ Hinner].
  destruct (Hinner t Ht) as (et & vt & Het & Hvt). cbv beta in Het.
  destruct (getitem (OPEX m) (s, t)) as [x|] eqn:Hx; [|discriminate].
  apply getitem_inv in Hx as (d & Hd & ->). simpl in Het. injection Het as <-.
  destruct d as [q|]; [|discriminate]. by apply has_value_intro with q.
Qed.

Lemma capex_ok_inv m v :
  capex_expr m ≫= value = Ok v →
  is_Some (p_dt (m_network m))
  ∧ ∀ s, s ∈ desalination_nodes (m_network m) → has_value (CAPEX m !! s) = true.
Proof.
  intros Hv. unfold capex_expr in Hv.
  destruct (py_sum _ _) as [e|] eqn:He; [|discriminate]. simpl in Hv.
  destruct (value e) as [ve|] eqn:Hve; [|discriminate]. simpl in Hv.
  destruct (decide (c365 = 0)); [discriminate|]. simpl in Hv.
  destruct (p_dt (m_network m)) as [p|]; [|discriminate].
  split; [by eexists|]. intros s Hs.
  destruct (value_sum_from_inv _ _ _ _ _ He Hve) as [_ Hall].
  destruct (Hall s Hs) as (es & vs & Hes & Hvs).
  apply getitem_inv in Hes as (d & Hd & ->).
  destruct d as [q|]; [|discriminate]. by apply has_value_intro with q.
Qed.

Lemma readable_intro m :
  network_readable (m_network m) = true →
  is_Some (p_dt (m_network m)) →
  (∀ s, s ∈ desalination_nodes (m_network m) → has_value (CAPEX m !! s) = true) →
  (∀ s t, s ∈ desalination_nodes (m_network m) → t ∈ s_T (m_network m) →
          has_value (OPEX m !! (s, t)) = true) →
  readable m = true.
Proof.
  intros Hn Hp Hc Ho. unfold readable. unfold network_readable in Hn.
  rewrite Hn. rewrite (bool_decide_eq_true_2 _ Hp). simpl.
  apply forallb_forall. intros s Hs%list_elem_of_In.
  rewrite (Hc s Hs). simpl.
  apply forallb_forall. intros t Ht%list_elem_of_In. by apply Ho.
Qed.

Ltac run_prints :=
  repeat (rewrite run_emit; cbv beta; rewrite ?append_out_app).

Ltac run_read H :=
  rewrite (run_lift _ _ _ _ H); cbv beta.

Lemma run_lift_fail {A B} (r : result A) (f : A → cell B) k e :
  r = Raise e → (lift r ≫= f) k = (k, Raise e).
Proof. by intros ->. Qed.

Lemma network_readable_spec n :
  network_readable n = true →
  is_Some (arc_cost n) ∧ is_Some (disp_cost n) ∧ is_Some (fresh_cost n)
  ∧ is_Some (stor_cost n) ∧ is_Some (stor_rev n) ∧ is_Some (treat_rev n).
Proof.
  unfold network_readable. intros H.
  repeat (apply andb_prop in H; destruct H as [H ?]).
  repeat match goal with
         | B : bool_decide _ = true |- _ => apply bool_decide_eq_true in B
         end.
  done.
Qed.

(** The cell up to the treatment OPEX expression, on a model whose network
    costs have values. *)
Lemma results_cell_network_part k :
  network_readable (m_network (k_m k)) = true →
  results_cell k
  = (v ← lift (opex_expr (k_m k) ≫= value);
     print_num (c1000 * v);;
     print_str "Treatment cost - CAPEX";;
     v ← lift (capex_expr (k_m k) ≫= value);
     print_num (c1000 * v);;
     print_str rule)
      (append_out k (printed_before_opex (m_network (k_m k)))).
Proof.
  intros Hn.
  destruct (network_readable_spec _ Hn)
    as ([a Ha]&[d Hd]&[f Hf]&[sc Hsc]&[sr Hsr]&[tr Htr]).
  unfold results_cell, print_str, print_num.
  run_prints. rewrite run_get_m; cbv beta. rewrite k_m_append_out.
  run_read (f_equal (λ c, value (Leaf c)) Ha). run_prints.
  run_read (f_equal (λ c, value (Leaf c)) Hd). run_prints.
  run_read (f_equal (λ c, value (Leaf c)) Hf). run_prints.
  run_read (f_equal (λ c, value (Leaf c)) Hsc). run_prints.
  run_read (f_equal (λ c, value (Leaf c)) Hsr). run_prints.
  run_read (f_equal (λ c, value (Leaf c)) Htr). run_prints.
  unfold printed_before_opex. rewrite Ha, Hd, Hf, Hsc, Hsr, Htr.
  reflexivity.
Qed.

(** X1: whether it completes or raises, the results cell leaves the model,
    the solver object, the recorded termination class and the log of solver
    calls as they were; it only appends lines to the output. *)
Theorem results_cell_only_prints k :
  k_m (results_cell k).1 = k_m k
  ∧ k_ipopt (results_cell k).1 = k_ipopt k
  ∧ k_last (results_cell k).1 = k_last k
  ∧ k_calls (results_cell k).1 = k_calls k
  ∧ ∃ ls, k_out (results_cell k).1 = k_out k ++ ls.
Proof.
  destruct (read_only_results_cell (k_m k)) as (ls & r & Hrun).
  rewrite (Hrun k eq_refl). simpl. repeat split; eauto.
Qed.

Lemma results_cell_ok_readable k :
  is_ok (results_cell k).2 = true → readable (k_m k) = true.
Proof.
  intros Hok.
  destruct (network_readable (m_network (k_m k))) eqn:Hn.
  - rewrite (results_cell_network_part k Hn) in Hok.
    destruct (opex_expr (k_m k) ≫= value) as [vo|eo] eqn:Ho;
      [|by rewrite run_lift_raise in Hok].
    rewrite (run_lift _ _ _ vo eq_refl) in Hok. cbv beta in Hok.
    unfold print_num, print_str in Hok. rewrite !run_emit in Hok.
    destruct (capex_expr (k_m k) ≫= value) as [vc|ec] eqn:Hc;
      [|by rewrite run_lift_raise in Hok].
    destruct (capex_ok_inv _ _ Hc) as [Hp Hcap].
    apply readable_intro; try done. by apply opex_ok_inv with vo.
  - exfalso. revert Hok Hn.
    unfold results_cell, print_str, print_num, network_readable.
    run_prints. rewrite run_get_m; cbv beta. rewrite k_m_append_out.
    generalize (m_network (k_m k)). intros n.
    destruct (arc_cost n) eqn:?; [|by rewrite (run_lift_fail (value (Leaf None)) _ _ ValueError eq_refl)].
    rewrite (run_lift (value (Leaf (Some _))) _ _ _ eq_refl); cbv beta; run_prints.
    destruct (disp_cost n) eqn:?; [|by rewrite (run_lift_fail (value (Leaf None)) _ _ ValueError eq_refl)].
    rewrite (run_lift (value (Leaf (Some _))) _ _ _ eq_refl); cbv beta; run_prints.
    destruct (fresh_cost n) eqn:?; [|by rewrite (run_lift_fail (value (Leaf None)) _ _ ValueError eq_refl)].
    rewrite (run_lift (value (Leaf (Some _))) _ _ _ eq_refl); cbv beta; run_prints.
    destruct (stor_cost n) eqn:?; [|by rewrite (run_lift_fail (value (Leaf None)) _ _ ValueError eq_refl)].
    rewrite (run_lift (value (Leaf (Some _))) _ _ _ eq_refl); cbv beta; run_prints.
    destruct (stor_rev n) eqn:?; [|by rewrite (run_lift_fail (value (Leaf None)) _ _ ValueError eq_refl)].
    rewrite (run_lift (value (Leaf (Some _))) _ _ _ eq_refl); cbv beta; run_prints.
    destruct (treat_rev n) eqn:?; [|by rewrite (run_lift_fail (value (Leaf None)) _ _ ValueError eq_refl)].
    intros _ Hbad. by vm_compute in Hbad.
Qed.

(** X2: the results cell runs to its end exactly on the readable models:
    the six network costs and the time step have values, and the
    desalination costs exist and have values at every desalination site and
    time period. *)
Theorem results_cell_ok_iff_readable k :
  is_ok (results_cell k).2 = readable (k_m k).
Proof.
  destruct (readable (k_m k)) eqn:Hr.
  - by rewrite (results_cell_readable k Hr).
  - destruct (is_ok (results_cell k).2) eqn:Hok; [|done].
    apply results_cell_ok_readable in Hok. congruence.
Qed.

(** X3: when the network costs have values and [OPEX] lacks an index for
    some desalination site and time period, the cell raises [KeyError] after
    printing the six network costs and the OPEX caption, and prints no
    treatment cost. The index error comes first, whatever values the other
    entries have or lack. *)
Theorem results_cell_missing_opex_index k s t :
  network_readable (m_network (k_m k)) = true →
  s ∈ desalination_nodes (m_network (k_m k)) →
  t ∈ s_T (m_network (k_m k)) →
  OPEX (k_m k) !! (s, t) = None →
  results_cell k
  = (append_out k (printed_before_opex (m_network (k_m k))), Raise KeyError).
Proof.
  intros Hn Hs Ht Hnone. rewrite (results_cell_network_part k Hn).
  apply run_lift_fail. by rewrite (opex_expr_missing _ s t).
Qed.

Lemma results_cell_missing_opex_index_demo :
  network_readable (m_network (k_m demo_missing_index)) = true
  ∧ "R01_IN" ∈ desalination_nodes (m_network (k_m demo_missing_index))
  ∧ "T02" ∈ s_T (m_network (k_m demo_missing_index))
  ∧ OPEX (k_m demo_missing_index) !! ("R01_IN", "T02") = None
  ∧ results_cell demo_missing_index
    = (append_out demo_missing_index
         (printed_before_opex (m_network (k_m demo_missing_index))),
       Raise KeyError).
Proof.
  assert (H1 : network_readable (m_network (k_m demo_missing_index)) = true)
    by reflexivity.
  assert (H2 : "R01_IN" ∈ desalination_nodes (m_network (k_m demo_missing_index)))
    by (simpl; left).
  assert (H3 : "T02" ∈ s_T (m_network (k_m demo_missing_index)))
    by (simpl; right; left).
  assert (H4 : OPEX (k_m demo_missing_index) !! ("R01_IN", "T02") = None)
    by reflexivity.
  split; [exact H1|]. split; [exact H2|]. split; [exact H3|].
  split; [exact H4|].
  exact (results_cell_missing_opex_index demo_missing_index "R01_IN" "T02"
           H1 H2 H3 H4).
Defined.

Lemma total_zero {A} (f : A → Qc) xs : (∀ x, f x = 0) → total f xs = 0.
Proof.
  intros Hf. induction xs as [|x xs IH]; [done|].
  simpl. rewrite Hf, IH. ring.
Qed.

Lemma total_nil {A} (f : A → Qc) : total f [] = 0.
Proof. reflexivity. Qed.

Lemma stated_treatment_zero m :
  desalination_nodes (m_network m) = [] ∨ s_T (m_network m) = [] →
  stated_treatment_opex m = 0 ∧ stated_treatment_capex m = 0.
Proof.
  unfold stated_treatment_opex, stated_treatment_capex. cbv zeta.
  intros [H | H]; rewrite H.
  - rewrite !total_nil. split; unfold Qcdiv; ring.
  - rewrite (total_zero (λ s, total _ [])) by done. split; [ring|].
    assert (E : Qc_of_Z (Z.of_nat (length (@nil string))) = 0)
      by (apply Qc_is_canon; reflexivity).
    rewrite E. ring.
Qed.

(** X5: on a readable model without desalination sites, or without time
    periods, both treatment costs are reported as 0. *)
Theorem no_sites_or_periods_zero_treatment k :
  readable (k_m k) = true →
  desalination_nodes (m_network (k_m k)) = [] ∨ s_T (m_network (k_m k)) = [] →
  ∃ r, (extract k).2 = Ok r
       ∧ r !! caption TreatmentOpex = Some 0
       ∧ r !! caption TreatmentCapex = Some 0.
Proof.
  intros Hr Hempty. rewrite (extract_readable k Hr). cbn [snd].
  destruct (stated_treatment_zero _ Hempty) as [Ho Hc].
  eexists. split; [done|]. rewrite !report_lookup, Ho, Hc. done.
Qed.

Lemma no_sites_or_periods_zero_treatment_demo :
  readable (k_m demo_no_sites) = true
  ∧ (desalination_nodes (m_network (k_m demo_no_sites)) = []
     ∨ s_T (m_network (k_m demo_no_sites)) = [])
  ∧ ∃ r, (extract demo_no_sites).2 = Ok r
         ∧ r !! caption TreatmentOpex = Some 0
         ∧ r !! caption TreatmentCapex = Some 0.
Proof.
  assert (H1 : readable (k_m demo_no_sites) = true) by reflexivity.
  assert (H2 : desalination_nodes (m_network (k_m demo_no_sites)) = []
               ∨ s_T (m_network (k_m demo_no_sites)) = []) by (by left).
  split; [exact H1|]. split; [exact H2|].
  exact (no_sites_or_periods_zero_treatment demo_no_sites H1 H2).
Defined.

(** The whole effect of the solve cell. *)
Lemma solve_cell_effect nlp k :
  (solve_cell nlp k).1
  = {| k_m := (nlp (the_call (k_m k))).1;
       k_ipopt := Some configured;
       k_out := k_out k;
       k_last := Some (match (nlp (the_call (k_m k))).2 with
                       | Ok st => st
                       | Raise _ => SolverError
                       end);
       k_calls := k_calls k ++ [the_call (k_m k)] |}.
Proof.
  unfold solve_cell, ipopt_set_option, ipopt_solve, mbind, cell_bind.
  cbn -[insert]. unfold call_solver. cbn -[insert].
  fold (the_call (k_m k)). fold configured.
  by destruct (nlp (the_call (k_m k))) as [m' r].
Qed.

Lemma rerun_S nlp n k : rerun nlp (S n) k = (solve_cell nlp (rerun nlp n k)).1.
Proof. reflexivity. Qed.

(** X6: running the solve cell [n] times in a row makes exactly [n] solver
    calls, the j-th on the model the previous run left, each to IPOPT with
    the same two options and with the solver's log asked for (the call of
    [the_call]); and after any run [ipopt] holds a solver with exactly
    those two options, whatever it held before. *)
Theorem rerun_calls nlp n k :
  k_calls (rerun nlp n k)
  = k_calls k ++ ((λ j, the_call (k_m (rerun nlp j k))) <$> seq 0 n)
  ∧ k_ipopt (rerun nlp (S n) k) = Some configured.
Proof.
  split.
  - induction n as [|n IH]; [by rewrite app_nil_r|].
    rewrite rerun_S, solve_cell_effect. cbn [k_calls].
    rewrite IH, seq_S, fmap_app, <- app_assoc. reflexivity.
  - by rewrite rerun_S, solve_cell_effect.
Qed.












(** With both names bound, the same kernel fails on the missing index. *)
Example results_cell_bound_missing_index :
  (results_cell_in {| pyo_bound := true; m_bound := true |} demo_missing_index).2
  = Raise KeyError.
Proof. reflexivity. Qed.

End IntegratedMore.

(** ** More on the membrane distillation notebook *)

Section MDMore.
Import MD.

Lemma with_calls_same nb : with_calls nb (md_calls nb) = nb.
Proof. by destruct nb. Qed.

Lemma with_calls_nil nb : with_calls nb (md_calls nb ++ []) = nb.
Proof. rewrite app_nil_r. apply with_calls_same. Qed.

Lemma with_calls_twice nb a b :
  with_calls (with_calls nb a) b = with_calls nb b.
Proof. reflexivity. Qed.

(** What [run_simulation] does to the notebook: it appends a prefix of the
    pipeline, the whole of it exactly when it returns. *)
Lemma run_simulation_effect md s f nb :
  ∃ sim, (run_simulation md s f nb).1 = with_calls nb (md_calls nb ++ sim)
         ∧ sim `prefix_of` pipeline_of f s (recovery_widget nb)
         ∧ (is_ok (run_simulation md s f nb).2 = true →
            ∃ w, recovery_widget nb = Some w ∧ sim = pipeline f s (value w)).
Proof.
  unfold run_simulation, mbind, act_bind, call, global, pipeline_of, pipeline.
  destruct (build md) as [fs|e]; cbn.
  2: { exists [CBuild]. split; [done|]. split; [|done].
       destruct (recovery_widget nb); [by eexists [_; _; _; _]|done]. }
  destruct (recovery_widget nb) as [w|] eqn:Hw; cbn.
  2: { exists [CBuild]. by split. }
  destruct (set_operating_conditions md fs f s (value w)) as [fs1|e]; cbn.
  2: { exists [CBuild; CSetOperatingConditions f s (value w)].
       rewrite <- !app_assoc. split; [done|]. split; [by eexists [_; _; _]|done]. }
  destruct (initialize_system md fs1) as [fs2|e]; cbn.
  2: { exists [CBuild; CSetOperatingConditions f s (value w); CInitializeSystem].
       rewrite <- !app_assoc. split; [done|]. split; [by eexists [_; _]|done]. }
  destruct (optimize_set_up md fs2) as [fs3|e]; cbn.
  2: { exists [CBuild; CSetOperatingConditions f s (value w); CInitializeSystem;
               COptimizeSetUp].
       rewrite <- !app_assoc. split; [done|]. split; [by eexists [_]|done]. }
  exists [CBuild; CSetOperatingConditions f s (value w); CInitializeSystem;
          COptimizeSetUp; CSolve].
  destruct (solve md fs3) as [fs4|e]; cbn;
    rewrite <- !app_assoc; (split; [done|]); (split; [done|]); eauto.
Qed.

Lemma logs_ret {A} P (a : A) : logs P (mret a).
Proof. intros nb. exists []. split; [|done]. cbn. by rewrite with_calls_nil. Qed.

Lemma logs_global {A} P (read : notebook → option A) : logs P (global read).
Proof.
  intros nb. exists []. split; [|done]. unfold global.
  destruct (read nb); cbn; by rewrite with_calls_nil.
Qed.

Lemma logs_call {A} (P : md_call → Prop) c (r : result A) :
  P c → logs P (call c r).
Proof. intros Hc nb. exists [c]. split; [done|]. by constructor. Qed.

Lemma logs_when (P : md_call → Prop) b (c : act unit) :
  logs P c → logs P (when b c).
Proof. intros Hc. destruct b; [done | apply logs_ret]. Qed.

Lemma logs_bind {A B} (P : md_call → Prop) (c : act A) (f : A → act B) :
  logs P c → (∀ a, logs P (f a)) → logs P (c ≫= f).
Proof.
  intros Hc Hf nb. destruct (Hc nb) as (new & Hrun & Hnew).
  unfold mbind, act_bind.
  destruct (c nb) as [nb' [a|e]]; cbn in Hrun; subst nb'.
  - destruct (Hf a (with_calls nb (md_calls nb ++ new))) as (new' & Hrun' & Hnew').
    exists (new ++ new'). split; [|by apply Forall_app].
    rewrite Hrun'. cbn. by rewrite app_assoc.
  - by exists new.
Qed.

Ltac solve_logs :=
  repeat first
    [ apply logs_ret
    | apply logs_global
    | apply logs_call; exact I
    | apply logs_when
    | apply logs_bind; [|intros ?] ].

(** The part of the click handler that follows [run_simulation]. *)
Lemma displays_log md (model : flowsheet md) :
  logs is_display (
    b ← global boxes;
    when (system_checkbox b) (call CDisplaySystem (display_system md model));;
    b ← global boxes;
    when (design_checkbox b) (call CDisplayDesign (display_design md model));;
    b ← global boxes;
    when (state_checkbox b) (call CDisplayState (display_state md model));;
    b ← global boxes;
    when (detailed_cost_checkbox b)
      (call CDisplayDetailedCosts (display_detailed_costs md model))).
Proof. solve_logs. Qed.

(** What a click does to the notebook. *)
Lemma click_effect md nb :
  ∃ sim disp,
    react md nb Click = with_calls nb (md_calls nb ++ sim ++ disp)
    ∧ Forall is_display disp
    ∧ (sim = [] ∧ disp = []
       ∨ ∃ sw fw, salinity_widget nb = Some sw ∧ flowrate_widget nb = Some fw
           ∧ sim `prefix_of` pipeline_of (value fw) (value sw) (recovery_widget nb)
           ∧ (disp ≠ [] → ∃ w, recovery_widget nb = Some w
                               ∧ sim = pipeline (value fw) (value sw) (value w))).
Proof.
  cbn [react]. destruct (run_button nb).
  2: { exists [], []. rewrite with_calls_nil. by repeat split; [|left]. }
  unfold on_run_button_clicked, mbind at 1 2 3 4, act_bind, global at 1 2 3.
  destruct (run_simulation_defined nb); cbn [fst snd].
  2: { exists [], []. rewrite with_calls_nil. by repeat split; [|left]. }
  destruct (salinity_widget nb) as [sw|] eqn:Hsw; cbn [fst snd].
  2: { exists [], []. rewrite with_calls_nil. by repeat split; [|left]. }
  destruct (flowrate_widget nb) as [fw|] eqn:Hfw; cbn [fst snd].
  2: { exists [], []. rewrite with_calls_nil. by repeat split; [|left]. }
  destruct (run_simulation_effect md (value sw) (value fw) nb)
    as (sim & Hrun & Hpre & Hfull).
  destruct (run_simulation md (value sw) (value fw) nb) as [nb' [model|e]];
    cbn [fst snd] in *; subst nb'.
  - destruct (displays_log md model (with_calls nb (md_calls nb ++ sim)))
      as (disp & Hdisp & Hall).
    exists sim, disp.
    split; [etrans; [exact Hdisp|]; cbn; by rewrite <- app_assoc|].
    split; [done|]. right. exists sw, fw.
    repeat split; try done. intros _. by apply Hfull.
  - exists sim, []. rewrite app_nil_r. split; [done|]. split; [done|].
    right. exists sw, fw. by repeat split.
Qed.

(** Arithmetic of the bounds. *)

Lemma cap_floor_within lo hi v :
  lo ≤ hi → lo ≤ cap_floor lo hi v ∧ cap_floor lo hi v ≤ hi.
Proof.
  intros Hw. unfold cap_floor, py_min, py_max.
  repeat case_decide; split;
    eauto using Qcle_refl, Qclt_le_weak, Qcnot_lt_le.
Qed.

Lemma recovery_bound_antitone a b :
  a ≤ b → recovery_bound b ≤ recovery_bound a.
Proof.
  intros Hab. unfold recovery_bound, Qcminus, Qcdiv.
  apply Qcplus_le_compat; [apply Qcle_refl|].
  apply Qcopp_le_compat, Qcmult_le_compat_r; [done|].
  by vm_compute.
Qed.

Lemma recovery_bound_range s :
  q 1 100 ≤ s → s ≤ q 15 100 →
  q 1 2 ≤ recovery_bound s ∧ recovery_bound s ≤ q 29 30.
Proof.
  intros Hlo Hhi. split.
  - apply Qcle_trans with (recovery_bound (q 15 100)); [by vm_compute|].
    by apply recovery_bound_antitone.
  - apply Qcle_trans with (recovery_bound (q 1 100)); [|by vm_compute].
    by apply recovery_bound_antitone.
Qed.

Lemma run_snoc md nb es e : run md nb (es ++ [e]) = react md (run md nb es) e.
Proof. unfold run. by rewrite foldl_app. Qed.

Lemma run_app md nb es es' : run md nb (es ++ es') = run md (run md nb es) es'.
Proof. unfold run. by rewrite foldl_app. Qed.

(** Only a click reaches the flowsheet package. *)
Lemma react_calls md nb e :
  is_click e = false → md_calls (react md nb e) = md_calls nb.
Proof.
  destruct e; try discriminate; intros _; cbn;
    unfold recovery_cell; repeat case_match; done.
Qed.

Lemma set_value_bounded lo hi w v :
  slider_within lo hi w → lo ≤ hi → slider_within lo hi (set_value w v).
Proof.
  intros (Hmin & Hmax & _ & _) Hle. unfold slider_within, set_value. cbn.
  rewrite Hmin, Hmax. repeat split. all: by apply cap_floor_within.
Qed.

Lemma new_slider_bounded v lo hi st :
  lo ≤ hi → slider_within lo hi (new_slider v lo hi st).
Proof.
  intros Hle. unfold slider_within, new_slider. cbn.
  repeat split. all: by apply cap_floor_within.
Qed.

Lemma well_bounded_fresh : well_bounded fresh.
Proof. split; [|split]; intros w Hw; discriminate Hw. Qed.

Lemma well_bounded_react md nb e :
  well_bounded nb → well_bounded (react md nb e).
Proof.
  intros Hnb. pose proof Hnb as (Hs & Hf & Hr).
  destruct e; cbn [react].
  - (* the sliders cell *)
    split; [|split]; cbn.
    + intros w [= <-]. apply new_slider_bounded. by vm_compute.
    + intros w [= <-]. apply new_slider_bounded. by vm_compute.
    + exact Hr.
  - (* the recovery cell *)
    unfold recovery_cell. destruct (salinity_widget nb) as [sw|] eqn:Hsw; [|exact Hnb].
    destruct (Hs sw eq_refl) as (_ & _ & Hlo & Hhi).
    destruct (recovery_bound_range _ Hlo Hhi) as [Hb1 Hb2].
    split; [|split]; cbn; [by rewrite Hsw| done |].
    intros w [= <-]. cbn.
    assert (q 1 10 ≤ 1 - value sw / q 3 10)
      by (apply Qcle_trans with (q 1 2); [by vm_compute|exact Hb1]).
    split; [done|]. split; [exact Hb1|]. split; [exact Hb2|].
    by apply cap_floor_within.
  - exact Hnb.
  - exact Hnb.
  - exact Hnb.
  - (* the salinity slider is moved *)
    destruct (salinity_widget nb) as [sw|] eqn:Hsw; [|exact Hnb].
    split; [|split]; cbn; [|done|done].
    intros w [= <-]. apply set_value_bounded; [by apply Hs|by vm_compute].
  - (* the flowrate slider is moved *)
    destruct (flowrate_widget nb) as [fw|] eqn:Hfw; [|exact Hnb].
    split; [|split]; cbn; [done| |done].
    intros w [= <-]. apply set_value_bounded; [by apply Hf|by vm_compute].
  - (* the recovery slider is moved *)
    destruct (recovery_widget nb) as [w0|] eqn:Hw0; [|exact Hnb].
    split; [|split]; cbn; [done|done|].
    intros w [= <-]. destruct (Hr w0 eq_refl) as (Hmin & Hb1 & Hb2 & Hlo & Hhi).
    cbn. repeat split; try done.
    all: apply cap_floor_within; by apply Qcle_trans with (value w0).
  - (* a checkbox is ticked *)
    destruct (boxes nb); exact Hnb.
  - (* the button is clicked *)
    destruct (click_effect md nb) as (sim & disp & Hrun & _).
    cbn [react] in Hrun. by rewrite Hrun.
Qed.

Lemma well_bounded_run md nb es : well_bounded nb → well_bounded (run md nb es).
Proof.
  intros Hnb. induction es as [|e es IH] using rev_ind; [done|].
  rewrite run_snoc. by apply well_bounded_react.
Qed.

Lemma prefix_Forall {A} (P : A → Prop) (l k : list A) :
  l `prefix_of` k → Forall P k → Forall P l.
Proof. intros [k' ->] Hk. by apply Forall_app in Hk as [? _]. Qed.

(** A property of everything a click can append. *)
Lemma click_new_calls (P : md_call → Prop) md nb :
  (∀ c, is_display c → P c) →
  (∀ sw fw, salinity_widget nb = Some sw → flowrate_widget nb = Some fw →
            Forall P (pipeline_of (value fw) (value sw) (recovery_widget nb))) →
  ∃ new, react md nb Click = with_calls nb (md_calls nb ++ new) ∧ Forall P new.
Proof.
  intros Hdisp Hpipe.
  destruct (click_effect md nb) as (sim & disp & Hrun & Hd & Hshape).
  exists (sim ++ disp). split; [done|]. apply Forall_app. split.
  - destruct Hshape as [[-> _]|(sw & fw & Hsw & Hfw & Hpre & _)]; [done|].
    eapply prefix_Forall; [exact Hpre|]. by apply Hpipe.
  - eapply Forall_impl; [exact Hd|]. exact Hdisp.
Qed.

(** X7: in every session each slider that exists keeps the range its cell
    gave it: salinity in [0.01, 0.15], flowrate in [0.1, 10], and recovery
    between 0.1 and its upper bound, which lies in [1/2, 29/30]. In
    particular no slider is ever created with its maximum below its
    minimum. *)
Theorem sliders_stay_within_bounds md es : well_bounded (run md fresh es).
Proof. apply well_bounded_run, well_bounded_fresh. Qed.

(** X8: in every session each call of [set_operating_conditions] is given
    a flowrate in [0.1, 10], a salinity in [0.01, 0.15] and an overall
    recovery in [0.1, 29/30]. *)
Theorem operating_conditions_in_range md es :
  Forall in_range (md_calls (run md fresh es)).
Proof.
  induction es as [|e es IH] using rev_ind; [by constructor|].
  rewrite run_snoc. destruct (is_click e) eqn:He.
  - destruct e; try discriminate.
    pose proof (well_bounded_run md fresh es well_bounded_fresh) as (Hs & Hf & Hr).
    destruct (click_new_calls in_range md (run md fresh es)) as (new & -> & Hnew).
    + by intros [].
    + intros sw fw Hsw Hfw.
      destruct (Hs sw Hsw) as (_ & _ & Hs1 & Hs2).
      destruct (Hf fw Hfw) as (_ & _ & Hf1 & Hf2).
      unfold pipeline_of, pipeline.
      destruct (recovery_widget (run md fresh es)) as [w|] eqn:Hw;
        repeat constructor; try done.
      * destruct (Hr w eq_refl) as (Hmin & _ & _ & Hlo & _). by rewrite <- Hmin.
      * destruct (Hr w eq_refl) as (_ & _ & Hmax & _ & Hhi).
        by apply Qcle_trans with (max w).
    + cbn. by apply Forall_app.
  - by rewrite react_calls.
Qed.

Lemma in_step_recovery_cell nb : in_step (recovery_cell nb).
Proof.
  unfold recovery_cell, in_step.
  destruct (salinity_widget nb) as [sw0|] eqn:Hsw0; cbn.
  - rewrite Hsw0. by intros sw w [= <-] [= <-].
  - rewrite Hsw0. by intros sw w [=].
Qed.

Lemma in_step_react md nb e :
  keeps_salinity e → in_step nb → in_step (react md nb e).
Proof.
  intros He Hnb. destruct e; try done; cbn [react].
  - apply in_step_recovery_cell.
  - by destruct (flowrate_widget nb).
  - destruct (recovery_widget nb) as [w0|] eqn:Hw0; [|done].
    intros sw w Hsw [= <-]. cbn in Hsw. cbn. by apply Hnb.
  - by destruct (boxes nb).
  - destruct (click_effect md nb) as (sim & disp & Hrun & _).
    cbn [react] in Hrun. by rewrite Hrun.
Qed.

Lemma in_step_run md nb es :
  well_bounded nb → in_step nb → Forall keeps_salinity es →
  ∃ new, md_calls (run md nb es) = md_calls nb ++ new
         ∧ Forall within_bound new
         ∧ in_step (run md nb es).
Proof.
  intros Hwb Hin Hes. induction es as [|e es IH] using rev_ind.
  - exists []. by rewrite app_nil_r.
  - apply Forall_app in Hes as [Hes He]. apply Forall_inv in He.
    destruct (IH Hes) as (new & Hcalls & Hnew & Hstep).
    rewrite run_snoc. destruct (is_click e) eqn:Hc.
    + destruct e; try discriminate.
      pose proof (well_bounded_run md nb es Hwb) as (Hs & Hf & Hr).
      destruct (click_new_calls within_bound md (run md nb es))
        as (new' & Hrun & Hnew').
      * by intros [].
      * intros sw fw Hsw Hfw. unfold pipeline_of, pipeline.
        destruct (recovery_widget (run md nb es)) as [w|] eqn:Hw;
          repeat constructor; try done.
        cbn. rewrite <- (Hstep sw w Hsw Hw).
        by destruct (Hr w eq_refl) as (_ & _ & _ & _ & ?).
      * exists (new ++ new'). split; [|split].
        -- rewrite Hrun. cbn. by rewrite Hcalls, app_assoc.
        -- by apply Forall_app.
        -- by apply (in_step_react md _ Click).
    + exists new. rewrite react_calls by done.
      split; [done|]. split; [done|]. by apply in_step_react.
Qed.

(** X9: once the recovery cell has run, and for as long as the salinity
    slider is neither moved nor created anew, every call of
    [set_operating_conditions] is given an overall recovery of at most
    1 - salinity/0.3 for the salinity it is given. *)
Theorem bound_respected_after_recovery_cell md es es' :
  Forall keeps_salinity es' →
  ∃ new, md_calls (run md fresh (es ++ RunRecoveryCell :: es'))
         = md_calls (run md fresh es) ++ new
         ∧ Forall within_bound new.
Proof.
  intros Hes'.
  change (es ++ RunRecoveryCell :: es') with (es ++ [RunRecoveryCell] ++ es').
  rewrite app_assoc, run_app, run_snoc.
  destruct (in_step_run md (react md (run md fresh es) RunRecoveryCell) es')
    as (new & Hcalls & Hnew & _); try done.
  - apply well_bounded_react, well_bounded_run, well_bounded_fresh.
  - apply in_step_recovery_cell.
  - exists new. rewrite Hcalls. split; [|done].
    by rewrite (react_calls md _ RunRecoveryCell).
Qed.

Lemma bound_respected_after_recovery_cell_demo :
  Forall keeps_salinity then_simulate
  ∧ ∃ new, md_calls (run md_returning fresh
                       (raise_salinity_early ++ RunRecoveryCell :: then_simulate))
           = md_calls (run md_returning fresh raise_salinity_early) ++ new
           ∧ Forall within_bound new.
Proof.
  assert (H : Forall keeps_salinity then_simulate) by (repeat constructor).
  split; [exact H|].
  exact (bound_respected_after_recovery_cell md_returning raise_salinity_early
           then_simulate H).
Defined.

(** In that session the simulation does run, with the recovery capped at
    the bound for the raised salinity. *)
Example capped_when_recovery_cell_runs_late :
  md_calls (run md_returning fresh
              (raise_salinity_early ++ RunRecoveryCell :: then_simulate))
  = pipeline 1 (q 15 100) (recovery_bound (q 15 100)).
Proof. reflexivity. Qed.

(** X10: a click changes nothing but the log of calls. It appends a prefix
    of build, set_operating_conditions (with the sliders' current values),
    initialize_system, optimize_set_up, solve, in that order, and display
    calls after it only when all five were made. *)
Theorem click_appends_pipeline_then_displays md nb :
  ∃ sim disp,
    react md nb Click = with_calls nb (md_calls nb ++ sim ++ disp)
    ∧ Forall is_display disp
    ∧ (sim = [] ∧ disp = []
       ∨ ∃ sw fw, salinity_widget nb = Some sw ∧ flowrate_widget nb = Some fw
           ∧ sim `prefix_of` pipeline_of (value fw) (value sw) (recovery_widget nb)
           ∧ (disp ≠ [] → ∃ w, recovery_widget nb = Some w
                               ∧ sim = pipeline (value fw) (value sw) (value w))).
Proof. exact (click_effect md nb). Qed.

Lemma run_simulation_returns md s f nb w :
  always_returns md →
  recovery_widget nb = Some w →
  ∃ model, run_simulation md s f nb
           = (with_calls nb (md_calls nb ++ pipeline f s (value w)), Ok model).
Proof.
  intros (Hb & Hset & Hinit & Hopt & Hsolve & _) Hw.
  unfold run_simulation, mbind, act_bind, call, global, pipeline.
  destruct (build md) as [fs|]; [|discriminate]. cbn. rewrite Hw. cbn.
  specialize (Hset fs f s (value w)).
  destruct (set_operating_conditions md fs f s (value w)) as [fs1|]; [|discriminate].
  cbn. specialize (Hinit fs1).
  destruct (initialize_system md fs1) as [fs2|]; [|discriminate].
  cbn. specialize (Hopt fs2).
  destruct (optimize_set_up md fs2) as [fs3|]; [|discriminate].
  cbn. specialize (Hsolve fs3).
  destruct (solve md fs3) as [fs4|]; [|discriminate].
  cbn. exists fs4. by rewrite <- !app_assoc.
Qed.

Lemma displays_returns md (model : flowsheet md) nb b :
  always_returns md →
  boxes nb = Some b →
  ((b ← global boxes;
    when (system_checkbox b) (call CDisplaySystem (display_system md model));;
    b ← global boxes;
    when (design_checkbox b) (call CDisplayDesign (display_design md model));;
    b ← global boxes;
    when (state_checkbox b) (call CDisplayState (display_state md model));;
    b ← global boxes;
    when (detailed_cost_checkbox b)
      (call CDisplayDetailedCosts (display_detailed_costs md model))) nb).1
  = with_calls nb (md_calls nb ++ shown b).
Proof.
  intros (_ & _ & _ & _ & _ & H1 & H2 & H3 & H4) Hb.
  specialize (H1 model). specialize (H2 model).
  specialize (H3 model). specialize (H4 model).
  unfold mbind, act_bind, global, when, call, shown.
  destruct (display_system md model); [|discriminate].
  destruct (display_design md model); [|discriminate].
  destruct (display_state md model); [|discriminate].
  destruct (display_detailed_costs md model); [|discriminate].
  rewrite Hb. destruct b as [[] [] [] []]; cbn; rewrite ?Hb; cbn;
    rewrite ?Hb; cbn; rewrite ?Hb; cbn;
    rewrite <- ?app_assoc; cbn; rewrite ?app_nil_r; try reflexivity;
    by rewrite with_calls_same.
Qed.

(** X11: with every name defined and a flowsheet package that never
    raises, a click makes the five simulation calls and then the display
    calls of the ticked boxes in the order system, design, state, detailed
    costs. *)
Theorem click_runs_whole_pipeline md nb sw fw w b :
  always_returns md →
  run_button nb = true →
  run_simulation_defined nb = true →
  salinity_widget nb = Some sw →
  flowrate_widget nb = Some fw →
  recovery_widget nb = Some w →
  boxes nb = Some b →
  react md nb Click
  = with_calls nb (md_calls nb
                   ++ pipeline (value fw) (value sw) (value w) ++ shown b).
Proof.
  intros Hmd Hbtn Hdef Hsw Hfw Hw Hb. cbn [react]. rewrite Hbtn.
  unfold on_run_button_clicked, mbind at 1 2 3 4, act_bind, global at 1 2 3.
  rewrite Hdef, Hsw, Hfw. cbn [fst snd].
  destruct (run_simulation_returns md (value sw) (value fw) nb w Hmd Hw)
    as (model & ->).
  etrans; [apply (displays_returns md model _ b Hmd); exact Hb|].
  cbn. by rewrite <- app_assoc.
Qed.

Lemma md_returning_always_returns : always_returns md_returning.
Proof. repeat (split; [by intros|]). by intros. Qed.

Lemma click_runs_whole_pipeline_demo :
  always_returns md_returning
  ∧ run_button ticked_before_click = true
  ∧ run_simulation_defined ticked_before_click = true
  ∧ salinity_widget ticked_before_click = Some salinity_raised
  ∧ flowrate_widget ticked_before_click = Some flowrate_untouched
  ∧ recovery_widget ticked_before_click = Some recovery_set_early
  ∧ boxes ticked_before_click = Some ticked
  ∧ react md_returning ticked_before_click Click
    = with_calls ticked_before_click
        (md_calls ticked_before_click
         ++ pipeline (value flowrate_untouched) (value salinity_raised)
              (value recovery_set_early)
         ++ shown ticked).
Proof.
  split; [exact md_returning_always_returns|].
  do 6 (split; [reflexivity|]).
  exact (click_runs_whole_pipeline md_returning ticked_before_click
           salinity_raised flowrate_untouched recovery_set_early ticked
           md_returning_always_returns eq_refl eq_refl eq_refl eq_refl eq_refl
           eq_refl).
Defined.

Example ticked_displays_in_handler_order :
  shown ticked = [CDisplaySystem; CDisplayDetailedCosts]
  ∧ shown {| system_checkbox := true; design_checkbox := true;
             detailed_cost_checkbox := true; state_checkbox := true |}
    = [CDisplaySystem; CDisplayDesign; CDisplayState; CDisplayDetailedCosts].
Proof. split; reflexivity. Qed.

(** X12: a click made before the recovery cell has run builds the
    flowsheet and then fails on the name [recovery_widget]: the block under
    [with output:] raises [NameError], which is shown in the output area
    while the handler itself returns normally; no operating conditions are
    set and nothing is displayed. *)
Theorem click_without_recovery_slider md fs nb sw fw :
  build md = Ok fs →
  run_simulation_defined nb = true →
  salinity_widget nb = Some sw →
  flowrate_widget nb = Some fw →
  recovery_widget nb = None →
  on_click md nb
  = (with_calls nb (md_calls nb ++ [CBuild]), Some NameError).
Proof.
  intros Hb Hdef Hsw Hfw Hw.
  unfold on_click, with_output.
  unfold on_run_button_clicked, mbind at 1 2 3 4, act_bind, global at 1 2 3.
  rewrite Hdef, Hsw, Hfw. cbn [fst snd].
  unfold run_simulation, mbind, act_bind, call, global.
  rewrite Hb. cbn. by rewrite Hw.
Qed.

Lemma click_without_recovery_slider_demo :
  build md_returning = Ok tt
  ∧ run_simulation_defined (run md_returning fresh no_recovery_cell) = true
  ∧ salinity_widget (run md_returning fresh no_recovery_cell)
    = Some (new_slider (q 35 1000) (q 1 100) (q 15 100) (q 5 1000))
  ∧ flowrate_widget (run md_returning fresh no_recovery_cell)
    = Some (new_slider 1 (q 1 10) (Qc_of_Z 10) (q 1 10))
  ∧ recovery_widget (run md_returning fresh no_recovery_cell) = None
  ∧ on_click md_returning (run md_returning fresh no_recovery_cell)
    = (with_calls (run md_returning fresh no_recovery_cell)
         (md_calls (run md_returning fresh no_recovery_cell) ++ [CBuild]),
       Some NameError).
Proof.
  do 5 (split; [reflexivity|]).
  exact (click_without_recovery_slider md_returning tt
           (run md_returning fresh no_recovery_cell) _ _
           eq_refl eq_refl eq_refl eq_refl eq_refl).
Defined.

(** The handler never raises: whatever the block does, the click returns. *)
Lemma on_click_returns md nb :
  (on_click md nb).1 = (on_run_button_clicked md nb).1
  ∧ ((on_click md nb).2 = None ↔ is_ok (on_run_button_clicked md nb).2 = true).
Proof.
  unfold on_click, with_output.
  destruct (on_run_button_clicked md nb) as [nb' [[]|e]]; cbn; by split.
Qed.

Lemma builds_in_prefix (sim : list md_call) f s rw :
  sim `prefix_of` pipeline_of f s rw →
  (length (filter (λ c, c = CBuild) sim) ≤ 1)%nat.
Proof.
  intros [k Hk].
  assert (Hone : length (filter (λ c, c = CBuild) (pipeline_of f s rw)) = 1%nat)
    by (by destruct rw).
  rewrite Hk, filter_app, length_app in Hone. lia.
Qed.

Lemma builds_in_displays (disp : list md_call) :
  Forall is_display disp → filter (λ c, c = CBuild) disp = [].
Proof.
  induction 1 as [|c disp Hc _ IH]; [done|].
  rewrite filter_cons_False; [done|]. by intros ->.
Qed.

(** X13: in every session the flowsheet is built at most once per click;
    running cells and moving sliders never reach the flowsheet package. *)
Theorem at_most_one_build_per_click md es :
  (length (filter (λ c, c = CBuild) (md_calls (run md fresh es)))
   ≤ length (filter (λ e, is_click e) es))%nat.
Proof.
  induction es as [|e es IH] using rev_ind; [done|].
  rewrite run_snoc, filter_app, length_app.
  destruct (is_click e) eqn:He.
  - destruct e; try discriminate.
    destruct (click_effect md (run md fresh es)) as (sim & disp & -> & Hd & Hshape).
    cbn [md_calls with_calls]. rewrite !filter_app, !length_app.
    rewrite (builds_in_displays disp Hd). cbn [length].
    assert (length (filter (λ c, c = CBuild) sim) ≤ 1)%nat.
    { destruct Hshape as [[-> _]|(sw & fw & _ & _ & Hpre & _)]; [cbn; lia|].
      by eapply builds_in_prefix. }
    rewrite filter_cons_True by done. cbn [length filter]. simpl. lia.
  - rewrite react_calls by done.
    rewrite filter_cons_False by (intros H; rewrite He in H; exact H). cbn. lia.
Qed.

End MDMore.
